(** * The storage layer of the social feed (server/storage.ts)

    A shallow embedding of [DatabaseStorage]: the four tables are lists of
    rows, every drizzle statement is a function of the store, and every
    [async] method is a computation in a state monad over the store.  One
    [await db...] is one statement, executed by the store in one piece.
    No method catches what a statement throws: when the store refuses an
    insert (a like or a comment on what is no post), the promise of the
    method rejects and the store is as it was.  A lost connection is not
    modelled. *)

From stdpp Require Import base decidable option list sorting strings pretty.
From Stdlib Require Import ZArith Lia.

Local Open Scope Z_scope.

Section Repository.

(** The columns of [users] besides [id] and [username]. *)
Variable Profile : Type.

(** The store's default for an [id] column: the key it gives to a row that is
    inserted without one, from the keys in use in that table. *)
Variable newId : list string → string.

(** ** Rows *)

(** Modelled from the spec: the row type [User] of [@shared/schema], which is
    not among the sources; the columns are those of the table [users]. *)
Record User := mkUser {
  user_id : string;
  user_username : string;
  user_profile : Profile
}.

(** Modelled from the spec: the row type [Post] of [@shared/schema]; the
    columns are those of the table [posts], which [getPosts] also selects
    one by one. *)
Record Post := mkPost {
  post_id : string;
  post_authorName : string;
  post_authorHandle : string;
  post_authorAvatar : string;
  post_content : string;
  post_image : option string;
  post_createdAt : Z
}.

(** Modelled from the spec: the row type [Like] of [@shared/schema]; the
    columns are those of the table [likes]. *)
Record Like := mkLike {
  like_id : string;
  like_postId : string;
  like_userId : string
}.

(** Modelled from the spec: the row type [Comment] of [@shared/schema]; the
    columns are those of the table [comments]. *)
Record Comment := mkComment {
  comment_id : string;
  comment_postId : string;
  comment_content : string;
  comment_author : string;
  comment_avatar : string;
  comment_createdAt : Z
}.

(** The database behind [db]: each table in the store's row order. *)
Record Store := mkStore {
  users : list User;
  posts : list Post;
  likes : list Like;
  comments : list Comment
}.

(** ** The statements of the query builder *)

Section Query.
Context {A B : Type}.

(** [.where(c)] *)
Definition where_ (c : A → Prop) `{!∀ r, Decision (c r)} (rows : list A) : list A :=
  filter c rows.

(** [.limit(n)] *)
Definition limit (n : nat) (rows : list A) : list A := take n rows.

(** The order of [.orderBy(k)] and of [.orderBy(desc(k))] on two rows. *)
Definition ascending (k : A → Z) : relation A := λ a b, k a ≤ k b.
Definition descending (k : A → Z) : relation A := λ a b, k b ≤ k a.

#[global] Instance ascending_dec k a b : Decision (ascending k a b).
Proof. unfold ascending. apply _. Defined.
#[global] Instance descending_dec k a b : Decision (descending k a b).
Proof. unfold descending. apply _. Defined.

(** [.orderBy(k)] *)
Definition orderBy (k : A → Z) (rows : list A) : list A :=
  merge_sort (ascending k) rows.

(** [.orderBy(desc(k))] *)
Definition orderByDesc (k : A → Z) (rows : list A) : list A :=
  merge_sort (descending k) rows.

(** [.leftJoin(t, on)]: a left row with no partner is kept, with an absent
    right side. *)
Definition leftJoin (on : A → B → Prop) `{!∀ a b, Decision (on a b)}
    (l : list A) (r : list B) : list (A * option B) :=
  a ← l;
  match filter (on a) r with
  | [] => [(a, None)]
  | ms => (λ b, (a, Some b)) <$> ms
  end.

(** [.groupBy(k)]: one group per value of [k]. *)
Definition groupBy `{!EqDecision B} (k : A → B) (rows : list A) : list (list A) :=
  (λ v, filter (λ r, k r = v) rows) <$> remove_dups (k <$> rows).

(** [COUNT(DISTINCT c)]: absent values are not counted. *)
Definition countDistinct `{!EqDecision B} (c : A → option B) (rows : list A) : Z :=
  Z.of_nat (length (remove_dups (omap c rows))).

(** [COUNT( * )] *)
Definition countAll (rows : list A) : Z := Z.of_nat (length rows).
End Query.

(** ** Computations on the store *)

Definition DB (A : Type) : Type := Store → A * Store.

Definition ret {A} (a : A) : DB A := λ s, (a, s).

Definition bind {A B} (m : DB A) (k : A → DB B) : DB B :=
  λ s, let (a, s') := m s in k a s'.

(** A statement that reads. *)
Definition query {A} (q : Store → A) : DB A := λ s, (q s, s).

(** A statement that writes. *)
Definition execute (w : Store → Store) : DB unit := λ s, (tt, w s).

Definition evalDB {A} (m : DB A) (s : Store) : A := (m s).1.
Definition execDB {A} (m : DB A) (s : Store) : Store := (m s).2.

Notation "'let!' x := m 'in' k" := (bind m (λ x, k))
  (at level 10, x binder, m at level 100, k at level 200).

(** What the promise of a method that writes comes to: it resolves with a
    value, or it rejects with the error of the store. *)
Inductive Outcome (A : Type) : Type :=
| Resolved (a : A)
| Rejected.

Arguments Resolved {A} a.
Arguments Rejected {A}.

(** [await] on a statement that may throw: what follows runs when the
    statement resolved, and the method rejects when it threw. *)
Definition attempt {A B} (m : DB (Outcome A)) (k : A → DB (Outcome B)) :
    DB (Outcome B) :=
  λ s, match m s with
       | (Resolved a, s') => k a s'
       | (Rejected, s') => (Rejected, s')
       end.

Notation "'try!' x := m 'in' k" := (attempt m (λ x, k))
  (at level 10, x binder, m at level 100, k at level 200).

(** ** The writes on [likes] *)

(** The store after it put a like of the pair into [likes], under the key
    that it gives to the row. *)
Definition withLike (postId userId : string) (s : Store) : Store :=
  mkStore (users s) (posts s)
    (likes s ++ [mkLike (newId (like_id <$> likes s)) postId userId])
    (comments s).

(** Modelled from the spec: the foreign key of [likes.postId], which
    [@shared/schema] declares: the store refuses a like on what is no post.

    [db.insert(likes).values({ postId, userId })] *)
Definition insertLike (postId userId : string) : DB (Outcome unit) :=
  λ s, if decide (postId ∈ post_id <$> posts s)
       then (Resolved tt, withLike postId userId s)
       else (Rejected, s).

(** [db.delete(likes).where(eq(likes.id, id))] *)
Definition deleteLike (id : string) (s : Store) : Store :=
  mkStore (users s) (posts s) (filter (λ l, like_id l ≠ id) (likes s)) (comments s).

(** The condition [likes.postId = postId AND likes.userId = userId]. *)
Definition likeOf (postId userId : string) (l : Like) : Prop :=
  like_postId l = postId ∧ like_userId l = userId.

#[global] Instance likeOf_dec postId userId l : Decision (likeOf postId userId l).
Proof. unfold likeOf. apply _. Defined.

(** ** DatabaseStorage *)

Definition getUser (id : string) : DB (option User) :=
  let! result := query (λ s, limit 1 (where_ (λ u, user_id u = id) (users s))) in
  ret (head result).

Definition getUserByUsername (username : string) : DB (option User) :=
  let! result := query (λ s, limit 1 (where_ (λ u, user_username u = username) (users s))) in
  ret (head result).

Definition getPost (id : string) : DB (option Post) :=
  let! result := query (λ s, limit 1 (where_ (λ p, post_id p = id) (posts s))) in
  ret (head result).

(** [Post & { likeCount; commentCount }] *)
Record PostWithCounts := mkPostWithCounts {
  pc_post : Post;
  likeCount : Z;
  commentCount : Z
}.

(** The join conditions [eq(posts.id, likes.postId)] and
    [eq(posts.id, comments.postId)]. *)
Definition onLikes (p : Post) (l : Like) : Prop := post_id p = like_postId l.
Definition onComments (r : Post * option Like) (c : Comment) : Prop :=
  post_id r.1 = comment_postId c.

#[global] Instance onLikes_dec p l : Decision (onLikes p l).
Proof. unfold onLikes. apply _. Defined.
#[global] Instance onComments_dec r c : Decision (onComments r c).
Proof. unfold onComments. apply _. Defined.

(** The rows of [posts LEFT JOIN likes LEFT JOIN comments]. *)
Definition joinedRows (s : Store) : list (Post * option Like * option Comment) :=
  leftJoin onComments (leftJoin onLikes (posts s) (likes s)) (comments s).

(** The select list of [getPosts] on one group: the columns of [posts] are
    those of the group's post, the counts range over the whole group.  The
    [CAST(... AS INTEGER)] of a count is the count: the model has the numbers
    that the types of the select list declare, and no table of 2^31 rows. *)
Definition selectCounts (g : list (Post * option Like * option Comment)) : option PostWithCounts :=
  match g with
  | [] => None
  | (p, _, _) :: _ =>
      Some (mkPostWithCounts
        (mkPost (post_id p) (post_authorName p) (post_authorHandle p)
           (post_authorAvatar p) (post_content p) (post_image p) (post_createdAt p))
        (countDistinct (λ r, like_id <$> r.1.2) g)
        (countDistinct (λ r, comment_id <$> r.2) g))
  end.

Definition getPosts : DB (list PostWithCounts) :=
  let! result := query (λ s,
    orderByDesc (λ r, post_createdAt (pc_post r))
      (omap selectCounts (groupBy (λ r, post_id r.1.1) (joinedRows s)))) in
  ret result.

Definition getPostsByRoom (roomId : string) : DB (list Post) :=
  let! result := query (λ s, orderByDesc post_createdAt (posts s)) in
  ret result.

Definition getLikesByPost (postId : string) : DB (list Like) :=
  query (λ s, where_ (λ l, like_postId l = postId) (likes s)).

(** A value of a column as the driver hands it to the program: an INTEGER
    is a number, and a bigint, which is what [COUNT] is when it is not cast,
    is its decimal text. *)
Inductive JsValue :=
| JsNumber (n : Z)
| JsString (text : string).

Definition integer (n : Z) : JsValue := JsNumber n.
Definition bigint (n : Z) : JsValue := JsString (pretty n).

(** [v || d]: [v] unless it is falsy, which [0] and the empty text are. *)
Definition truthy (v : JsValue) : bool :=
  match v with
  | JsNumber n => bool_decide (n ≠ 0)
  | JsString text => bool_decide (text ≠ "")
  end.

Definition orElse (v d : JsValue) : JsValue := if truthy v then v else d.

(** The one row of [select({ count })]. *)
Record CountRow := mkCountRow { count : JsValue }.

(** The result is what the [count] column holds, which is not cast as the
    counts of [getPosts] are: the text of the count, for no like the text
    ["0"], which is not falsy. *)
Definition getLikesCount (postId : string) : DB JsValue :=
  let! result := query (λ s,
    [mkCountRow
       (bigint (countAll (where_ (λ l, like_postId l = postId) (likes s))))]) in
  ret (match head result with
       | Some r => orElse (count r) (JsNumber 0)
       | None => JsNumber 0
       end).

Definition checkUserLike (postId userId : string) : DB bool :=
  let! result := query (λ s, limit 1 (where_ (likeOf postId userId) (likes s))) in
  ret (bool_decide (0 < length result)%nat).

Definition checkLike (postId userId : string) : DB bool :=
  checkUserLike postId userId.

Definition addLike (postId userId : string) : DB (Outcome unit) :=
  insertLike postId userId.

(** [{ liked: boolean }] *)
Record ToggleResult := mkToggleResult { liked : bool }.

Definition toggleLike (postId userId : string) : DB (Outcome ToggleResult) :=
  let! existingLike := query (λ s, limit 1 (where_ (likeOf postId userId) (likes s))) in
  match existingLike with
  | l :: _ =>
      let! _ := execute (deleteLike (like_id l)) in
      ret (Resolved (mkToggleResult false))
  | [] =>
      try! _ := insertLike postId userId in
      ret (Resolved (mkToggleResult true))
  end.

Definition getCommentsByPost (postId : string) : DB (list Comment) :=
  query (λ s, orderBy comment_createdAt
                (where_ (λ c, comment_postId c = postId) (comments s))).

(** The row of [select({ content: comments.content })]. *)
Record ContentRow := mkContentRow { content : string }.

Definition getComments (postId : string) : DB (list string) :=
  let! result := query (λ s,
    (λ c, mkContentRow (comment_content c)) <$>
      orderBy comment_createdAt
        (where_ (λ c, comment_postId c = postId) (comments s))) in
  ret (content <$> result).

(** ** Calls in sequence and calls in flight *)

(** [n] calls of [toggleLike(postId, userId)], each awaited before the next
    is made; what the calls came to, in call order. *)
Fixpoint toggleTimes (n : nat) (postId userId : string) :
    DB (list (Outcome ToggleResult)) :=
  match n with
  | O => ret []
  | S n' =>
      let! r := toggleLike postId userId in
      let! rs := toggleTimes n' postId userId in
      ret (r :: rs)
  end.

(** A call of [toggleLike] between its statements: not yet at its first
    [await], suspended on the write with the rows its lookup returned,
    returned, or rejected with what its insert threw. *)
Inductive Call :=
| Issued (postId userId : string)
| Fetched (postId userId : string) (existingLike : list Like)
| Returned (r : ToggleResult)
| Thrown.

(** The call whose promise came to an outcome. *)
Definition settled (o : Outcome ToggleResult) : Call :=
  match o with
  | Resolved r => Returned r
  | Rejected => Thrown
  end.

(** The next statement of a call. *)
Definition stepCall (c : Call) : DB Call :=
  match c with
  | Issued postId userId =>
      let! existingLike :=
        query (λ s, limit 1 (where_ (likeOf postId userId) (likes s))) in
      ret (Fetched postId userId existingLike)
  | Fetched postId userId existingLike =>
      match existingLike with
      | l :: _ =>
          let! _ := execute (deleteLike (like_id l)) in
          ret (Returned (mkToggleResult false))
      | [] =>
          let! o := (try! _ := insertLike postId userId in
                     ret (Resolved (mkToggleResult true))) in
          ret (settled o)
      end
  | Returned r => ret (Returned r)
  | Thrown => ret Thrown
  end.

(** The store serves the next statement of the [i]-th call. *)
Definition stepAt (i : nat) (calls : list Call) : DB (list Call) :=
  match calls !! i with
  | Some c => let! c' := stepCall c in ret (<[i := c']> calls)
  | None => ret calls
  end.

(** An interleaving: the calls whose statements the store serves, in order. *)
Fixpoint runSchedule (schedule : list nat) (calls : list Call) : DB (list Call) :=
  match schedule with
  | [] => ret calls
  | i :: schedule' =>
      let! calls' := stepAt i calls in
      runSchedule schedule' calls'
  end.

(** The interleaving in which the calls of [order] run one after another,
    each with its two statements back to back. *)
Definition serially (order : list nat) : list nat := i ← order; [i; i].

(** A call that is not between its lookup and its write. *)
Definition notSuspended (c : Call) : Prop :=
  match c with
  | Fetched _ _ _ => False
  | _ => True
  end.

(** ** The invariants of the tables *)

(** At most one like of a user on a post. *)
Definition atMostOneLike (postId userId : string) (s : Store) : Prop :=
  (length (filter (likeOf postId userId) (likes s)) ≤ 1)%nat.

(** The primary keys. *)
Definition likeKeys (s : Store) : Prop := NoDup (like_id <$> likes s).
Definition commentKeys (s : Store) : Prop := NoDup (comment_id <$> comments s).
Definition postKeys (s : Store) : Prop := NoDup (post_id <$> posts s).

End Repository.

Arguments mkUser {Profile}.
Arguments user_id {Profile}.
Arguments user_username {Profile}.
Arguments user_profile {Profile}.
Arguments mkStore {Profile}.
Arguments users {Profile}.
Arguments posts {Profile}.
Arguments likes {Profile}.
Arguments comments {Profile}.
Arguments ret {Profile A}.
Arguments bind {Profile A B}.
Arguments query {Profile A}.
Arguments execute {Profile}.
Arguments evalDB {Profile A}.
Arguments execDB {Profile A}.
Arguments Resolved {A} a.
Arguments Rejected {A}.
Arguments attempt {Profile A B}.
Arguments withLike {Profile}.
Arguments insertLike {Profile}.
Arguments deleteLike {Profile}.
Arguments joinedRows {Profile}.
Arguments getUser {Profile}.
Arguments getUserByUsername {Profile}.
Arguments getPost {Profile}.
Arguments getPosts {Profile}.
Arguments getPostsByRoom {Profile}.
Arguments getLikesByPost {Profile}.
Arguments getLikesCount {Profile}.
Arguments checkUserLike {Profile}.
Arguments checkLike {Profile}.
Arguments addLike {Profile}.
Arguments toggleLike {Profile}.
Arguments getCommentsByPost {Profile}.
Arguments getComments {Profile}.
Arguments toggleTimes {Profile}.
Arguments stepCall {Profile}.
Arguments stepAt {Profile}.
Arguments runSchedule {Profile}.
Arguments atMostOneLike {Profile}.
Arguments serially : simpl never.
Arguments likeKeys {Profile}.
Arguments commentKeys {Profile}.
Arguments postKeys {Profile}.

Notation "'let!' x := m 'in' k" := (bind m (λ x, k))
  (at level 10, x binder, m at level 100, k at level 200).
Notation "'try!' x := m 'in' k" := (attempt m (λ x, k))
  (at level 10, x binder, m at level 100, k at level 200).

(** [x] comes before [y] in [l]. *)
Definition appearsBefore {A} (x y : A) (l : list A) : Prop :=
  ∃ i j : nat, (i < j)%nat ∧ l !! i = Some x ∧ l !! j = Some y.

(** ** A store to run the model on *)

Module Sample.

(** A key generator: longer than every key in use. *)
Definition freshId (used : list string) : string :=
  String.append "#" (foldr String.append "" used).

Definition post1 : Post := mkPost "p1" "Ada" "@ada" "ada.png" "first" None 100.
Definition post2 : Post := mkPost "p2" "Bob" "@bob" "bob.png" "second" (Some "cat.png") 200.

Definition like1 : Like := mkLike "l1" "p1" "u1".
Definition like2 : Like := mkLike "l2" "p1" "u1".
Definition like3 : Like := mkLike "l3" "p1" "u2".

Definition comment1 : Comment := mkComment "c1" "p1" "hello" "Ada" "ada.png" 120.
Definition comment2 : Comment := mkComment "c2" "p1" "world" "Bob" "bob.png" 110.

(** Two posts; [p1] has two likes by two users and two comments, [p2] has
    neither. *)
Definition feed : Store unit :=
  mkStore [mkUser "u1" "ada" tt] [post1; post2] [like1; like3] [comment1; comment2].

(** [feed] after [addLike("p1", "u1")] was used on top of an existing
    like. *)
Definition doubled : Store unit :=
  mkStore [mkUser "u1" "ada" tt] [post1; post2] [like1; like2; like3] [comment1; comment2].

End Sample.

(** ** The inserts *)

Section Inserts.

Context {Profile : Type}.

(** The store's defaults for the columns that [addComment] leaves out: the
    [id] of the row, from the keys in use, and its [createdAt]. *)
Variable newId : list string → string.
Variable now : Store Profile → Z.

(** The values of [InsertUser], [InsertPost] and [InsertComment], which
    [@shared/schema] declares, and the row that the store persists for
    them: their columns and its defaults for the others. *)
Variables InsertUser InsertPost InsertComment : Type.
Variable userRow : InsertUser → Store Profile → User Profile.
Variable postRow : InsertPost → Store Profile → Post.
Variable commentRow : InsertComment → Store Profile → Comment.

(** [db.insert(users).values(v).returning()] *)
Definition insertIntoUsers (v : InsertUser) : DB Profile (list (User Profile)) :=
  λ s, let row := userRow v s in
       ([row], mkStore (users s ++ [row]) (posts s) (likes s) (comments s)).

(** [db.insert(posts).values(v).returning()] *)
Definition insertIntoPosts (v : InsertPost) : DB Profile (list Post) :=
  λ s, let row := postRow v s in
       ([row], mkStore (users s) (posts s ++ [row]) (likes s) (comments s)).

(** The store after it put a row into [comments]. *)
Definition withComment (row : Comment) (s : Store Profile) : Store Profile :=
  mkStore (users s) (posts s) (likes s) (comments s ++ [row]).

(** Modelled from the spec: the foreign key of [comments.postId], which
    [@shared/schema] declares: the store refuses a comment on what is no
    post.

    [db.insert(comments).values(v).returning()] *)
Definition insertIntoComments (v : InsertComment) :
    DB Profile (Outcome (list Comment)) :=
  λ s, let row := commentRow v s in
       if decide (comment_postId row ∈ post_id <$> posts s)
       then (Resolved [row], withComment row s)
       else (Rejected, s).

(** Modelled from the spec: the same foreign key.

    [db.insert(comments).values({ postId, content, author, avatar })] *)
Definition insertComment (postId content author avatar : string) :
    DB Profile (Outcome unit) :=
  λ s, if decide (postId ∈ post_id <$> posts s)
       then (Resolved tt,
             withComment
               (mkComment (newId (comment_id <$> comments s)) postId content
                  author avatar (now s)) s)
       else (Rejected, s).

Definition createUser (insertUser : InsertUser) : DB Profile (option (User Profile)) :=
  let! result := insertIntoUsers insertUser in
  ret (head result).

Definition createPost (insertPost : InsertPost) : DB Profile (option Post) :=
  let! result := insertIntoPosts insertPost in
  ret (head result).

Definition addComment (postId text : string) : DB Profile (Outcome unit) :=
  insertComment postId text "زائر" "https://via.placeholder.com/60".

Definition createComment (insertComment : InsertComment) :
    DB Profile (Outcome (option Comment)) :=
  try! result := insertIntoComments insertComment in
  ret (Resolved (head result)).

(** The keys of [users]: the primary key and the unique [username]. *)
Definition userKeys (s : Store Profile) : Prop := NoDup (user_id <$> users s).
Definition usernameKeys (s : Store Profile) : Prop :=
  NoDup (user_username <$> users s).

(** The foreign keys: a like and a comment are on a post of the store. *)
Definition likesOnPosts (s : Store Profile) : Prop :=
  ∀ l, l ∈ likes s → like_postId l ∈ post_id <$> posts s.
Definition commentsOnPosts (s : Store Profile) : Prop :=
  ∀ c, c ∈ comments s → comment_postId c ∈ post_id <$> posts s.

End Inserts.

Arguments createUser {Profile InsertUser}.
Arguments createPost {Profile InsertPost}.
Arguments createComment {Profile InsertComment}.
Arguments insertIntoUsers {Profile InsertUser}.
Arguments insertIntoPosts {Profile InsertPost}.
Arguments insertIntoComments {Profile InsertComment}.

(** ** Defaults and values to run the inserts on *)

Module SampleInserts.

(** A clock that is later than every row of the store. *)
Definition clock (s : Store unit) : Z :=
  1 + foldr Z.max 0
        ((post_createdAt <$> posts s) ++ (comment_createdAt <$> comments s)).

(** A user is registered with a name. *)
Definition userRow (username : string) (s : Store unit) : User unit :=
  mkUser (Sample.freshId (user_id <$> users s)) username tt.

(** A post is made with its author and its text. *)
Definition postRow (v : string * string) (s : Store unit) : Post :=
  mkPost (Sample.freshId (post_id <$> posts s)) v.1 ("@" +:+ v.1) "avatar.png"
    v.2 None (clock s).

(** A comment is made on a post with its text and its author. *)
Definition commentRow (v : string * string * string) (s : Store unit) : Comment :=
  mkComment (Sample.freshId (comment_id <$> comments s)) v.1.1 v.1.2 v.2
    "avatar.png" (clock s).

(** A post made in the instant [300]: the clock of the store does not move
    between two rows that it makes in one instant. *)
Definition postRowAt300 (v : string * string) (s : Store unit) : Post :=
  mkPost (Sample.freshId (post_id <$> posts s)) v.1 ("@" +:+ v.1) "avatar.png"
    v.2 None 300.

(** [createPost] of a post by Ada, then of a post by Bob, in one instant,
    on a store with no rows. *)
Definition sameInstant : DB unit (option Post * option Post) :=
  let! P1 := createPost postRowAt300 ("Ada", "one") in
  let! P2 := createPost postRowAt300 ("Bob", "two") in
  ret (P1, P2).

End SampleInserts.

(** * Properties *)

(** ** Rows and keys *)

Section Keys.
Context {A K : Type} `{!EqDecision K} (key : A → K).

Lemma NoDup_key_filter (P : A → Prop) `{!∀ x, Decision (P x)} (l : list A) :
  NoDup (key <$> l) → NoDup (key <$> filter P l).
Proof.
  induction l as [|a l IH]; [done|]. rewrite fmap_cons, NoDup_cons.
  intros [Ha Hl]. rewrite filter_cons. case_decide; [|by apply IH].
  rewrite fmap_cons, NoDup_cons. split; [|by apply IH].
  intros (y & Hy & Hin)%list_elem_of_fmap.
  apply list_elem_of_filter in Hin as [_ Hin].
  apply Ha, list_elem_of_fmap. eauto.
Qed.

(** A key names one row. *)
Lemma NoDup_key_eq (l : list A) (x y : A) :
  NoDup (key <$> l) → x ∈ l → y ∈ l → key x = key y → x = y.
Proof.
  induction l as [|a l IH]; [by intros _ ?%elem_of_nil|].
  rewrite fmap_cons, NoDup_cons. intros [Ha Hl].
  rewrite !elem_of_cons. intros [->|Hx] [->|Hy] Hk; auto.
  - destruct Ha. rewrite Hk. by apply list_elem_of_fmap_2.
  - destruct Ha. rewrite <- Hk. by apply list_elem_of_fmap_2.
Qed.

Lemma filter_all (P : A → Prop) `{!∀ x, Decision (P x)} (l : list A) :
  (∀ x, x ∈ l → P x) → filter P l = l.
Proof.
  induction l as [|a l IH]; [done|]. intros Hall.
  rewrite filter_cons_True by (apply Hall; left).
  f_equal. apply IH. intros x Hx. apply Hall. by right.
Qed.

Lemma filter_none (P : A → Prop) `{!∀ x, Decision (P x)} (l : list A) :
  (∀ x, x ∈ l → ¬ P x) → filter P l = [].
Proof.
  intros Hno. apply elem_of_nil_inv. intros x [HP Hx]%list_elem_of_filter.
  by apply (Hno x).
Qed.

(** Deleting by the key of a row deletes that row and no other. *)
Lemma delete_by_key (l : list A) (x : A) :
  NoDup (key <$> l) → x ∈ l →
  l ≡ₚ x :: filter (λ y, key y ≠ key x) l.
Proof.
  induction l as [|a l IH]; [by intros _ ?%elem_of_nil|].
  rewrite fmap_cons, NoDup_cons. intros [Ha Hl] Hx.
  destruct (decide (key a = key x)) as [Heq|Hne].
  - assert (a = x) as ->.
    { apply elem_of_cons in Hx as [->|Hx]; [done|].
      destruct Ha. rewrite Heq. by apply list_elem_of_fmap_2. }
    rewrite filter_cons_False by (intros H; by apply H).
    f_equiv. symmetry. apply reflexive_eq, filter_all.
    intros y Hy Hk. apply Ha. rewrite <- Hk. by apply list_elem_of_fmap_2.
  - apply elem_of_cons in Hx as [->|Hx]; [done|].
    rewrite filter_cons_True by done.
    rewrite (IH Hl Hx) at 1. apply Permutation_swap.
Qed.

(** [COUNT(DISTINCT k)] over rows that show the keys of [l], each at least
    once, is the number of rows of [l] when [k] is a key of [l]. *)
Lemma length_remove_dups_keys (shown : list K) (l : list A) :
  NoDup (key <$> l) →
  (∀ k, k ∈ shown ↔ k ∈ key <$> l) →
  length (remove_dups shown) = length l.
Proof.
  intros Hl Hsame. rewrite <- (length_fmap key l).
  apply Permutation_length, NoDup_Permutation; [apply NoDup_remove_dups|done|].
  intros k. by rewrite elem_of_remove_dups.
Qed.
End Keys.

(** ** Joins, groups and orders *)

Section Statements.
Context {A B : Type}.

Lemma elem_of_leftJoin (on : A → B → Prop) `{!∀ a b, Decision (on a b)}
    (l : list A) (r : list B) (a : A) (ob : option B) :
  (a, ob) ∈ leftJoin on l r
  ↔ a ∈ l ∧ match ob with
            | Some b => b ∈ r ∧ on a b
            | None => ∀ b, b ∈ r → ¬ on a b
            end.
Proof.
  unfold leftJoin. rewrite list_elem_of_bind. split.
  - intros (a' & Hin & Ha'). destruct (filter (on a') r) as [|b0 ms] eqn:E.
    + apply list_elem_of_singleton in Hin as [= -> ->]. split; [done|].
      intros b Hb Hon. by apply (filter_nil_not_elem_of _ _ b E).
    + apply list_elem_of_fmap in Hin as (b & [= -> ->] & Hb). split; [done|].
      rewrite <- E in Hb. apply list_elem_of_filter in Hb. tauto.
  - intros [Ha Hob]. exists a. split; [|done]. destruct ob as [b|].
    + assert (b ∈ filter (on a) r) as Hb by (apply list_elem_of_filter; tauto).
      destruct (filter (on a) r) as [|b0 ms]; [by apply elem_of_nil in Hb|].
      by apply list_elem_of_fmap_2' with b.
    + rewrite filter_none by done. by apply list_elem_of_singleton.
Qed.

(** A left join drops no left row. *)
Lemma leftJoin_total (on : A → B → Prop) `{!∀ a b, Decision (on a b)}
    (l : list A) (r : list B) (a : A) :
  a ∈ l → ∃ ob, (a, ob) ∈ leftJoin on l r.
Proof.
  intros Ha. destruct (filter (on a) r) as [|b0 ms] eqn:E.
  - exists None. apply elem_of_leftJoin. split; [done|].
    intros b Hb Hon. by apply (filter_nil_not_elem_of _ _ b E).
  - exists (Some b0). apply elem_of_leftJoin. split; [done|].
    assert (b0 ∈ filter (on a) r) as Hb by (rewrite E; left).
    apply list_elem_of_filter in Hb. tauto.
Qed.

Lemma elem_of_groupBy `{!EqDecision B} (k : A → B) (rows g : list A) :
  g ∈ groupBy k rows
  ↔ ∃ v, g = filter (λ r, k r = v) rows ∧ v ∈ k <$> rows.
Proof.
  unfold groupBy. rewrite list_elem_of_fmap.
  by setoid_rewrite elem_of_remove_dups.
Qed.

Lemma length_remove_dups_same `{!EqDecision A} (l1 l2 : list A) :
  (∀ x, x ∈ l1 ↔ x ∈ l2) → length (remove_dups l1) = length (remove_dups l2).
Proof.
  intros Hsame. apply Permutation_length, NoDup_Permutation;
    [apply NoDup_remove_dups..|].
  intros x. by rewrite !elem_of_remove_dups.
Qed.

#[global] Instance ascending_transitive (k : A → Z) : Transitive (ascending k).
Proof. unfold ascending. intros x y z. lia. Qed.
#[global] Instance ascending_total (k : A → Z) : Total (ascending k).
Proof. unfold ascending. intros x y. lia. Qed.
#[global] Instance descending_transitive (k : A → Z) : Transitive (descending k).
Proof. unfold descending. intros x y z. lia. Qed.
#[global] Instance descending_total (k : A → Z) : Total (descending k).
Proof. unfold descending. intros x y. lia. Qed.

Lemma orderBy_Permutation (k : A → Z) (rows : list A) : orderBy k rows ≡ₚ rows.
Proof. apply merge_sort_Permutation. Qed.

Lemma orderByDesc_Permutation (k : A → Z) (rows : list A) :
  orderByDesc k rows ≡ₚ rows.
Proof. apply merge_sort_Permutation. Qed.

Lemma orderBy_sorted (k : A → Z) (rows : list A) :
  StronglySorted (ascending k) (orderBy k rows).
Proof. apply StronglySorted_merge_sort; apply _. Qed.

Lemma orderByDesc_sorted (k : A → Z) (rows : list A) :
  StronglySorted (descending k) (orderByDesc k rows).
Proof. apply StronglySorted_merge_sort; apply _. Qed.

Lemma StronglySorted_lookup (R : relation A) (l : list A) (i j : nat) (x y : A) :
  StronglySorted R l → (i < j)%nat → l !! i = Some x → l !! j = Some y → R x y.
Proof.
  intros Hl. revert i j. induction Hl as [|a l Hl IH Ha]; intros i j Hij Hi Hj.
  { by rewrite lookup_nil in Hi. }
  destruct j as [|j]; [lia|]. destruct i as [|i]; simpl in Hi, Hj.
  - injection Hi as ->. eapply Forall_lookup in Ha; eauto.
  - apply (IH i j); [lia|done..].
Qed.

(** In rows ordered by a descending key, a row with a greater key comes
    before one with a smaller key. *)
Lemma descending_appearsBefore (k : A → Z) (l : list A) (x y : A) :
  StronglySorted (descending k) l → x ∈ l → y ∈ l → k y < k x →
  appearsBefore x y l.
Proof.
  intros Hl [i Hi]%list_elem_of_lookup [j Hj]%list_elem_of_lookup Hlt.
  exists i, j. split; [|done].
  destruct (Nat.lt_trichotomy i j) as [?|[->|Hji]]; [done|..].
  - rewrite Hi in Hj. injection Hj as ->. lia.
  - pose proof (StronglySorted_lookup _ _ _ _ _ _ Hl Hji Hj Hi) as Hd.
    unfold descending in Hd. lia.
Qed.
End Statements.

(** ** The text of a count *)

Lemma pretty_N_go_nonempty (x : N) (text : string) :
  text ≠ "" → pretty_N_go x text ≠ "".
Proof.
  revert text. induction (N.lt_wf_0 x) as [x _ IH]; intros text Htext.
  destruct (decide (x = 0%N)) as [->|Hx]; [by rewrite pretty_N_go_0|].
  rewrite pretty_N_go_step by lia. apply IH; [|done].
  apply N.div_lt; lia.
Qed.

(** The text of a number is never the empty text, which is the falsy one. *)
Lemma pretty_Z_nonempty (n : Z) : pretty n ≠ "".
Proof.
  assert (∀ p : positive, pretty_N_go (N.pos p) "" ≠ "") as Hpos.
  { intros p. rewrite pretty_N_go_step by lia. by apply pretty_N_go_nonempty. }
  destruct n as [|p|p]; [done|apply Hpos|done].
Qed.

Lemma orElse_bigint (n : Z) (d : JsValue) : orElse (bigint n) d = JsString (pretty n).
Proof.
  unfold orElse, bigint, truthy. rewrite bool_decide_eq_true_2; [done|].
  apply pretty_Z_nonempty.
Qed.

Section Properties.

Context {Profile : Type}.
Variable newId : list string → string.

Implicit Types (s : Store Profile) (postId userId : string).

(** Runs the statements of a computation on the store at hand. *)
Ltac run_db :=
  unfold evalDB, execDB, bind, query, execute, ret, where_; cbn [fst snd].

(** ** Statements *)

Lemma limit_1 {A} (rows : list A) :
  limit 1 rows = match rows with [] => [] | r :: _ => [r] end.
Proof. by destruct rows. Qed.

Lemma likes_withLike s postId userId :
  likes (withLike newId postId userId s)
  = likes s ++ [mkLike (newId (like_id <$> likes s)) postId userId].
Proof. done. Qed.

Lemma likes_deleteLike s id :
  likes (deleteLike id s) = filter (λ l, like_id l ≠ id) (likes s).
Proof. done. Qed.

Lemma likeOf_withLike s postId userId :
  filter (likeOf postId userId) (likes (withLike newId postId userId s))
  = filter (likeOf postId userId) (likes s)
    ++ [mkLike (newId (like_id <$> likes s)) postId userId].
Proof.
  rewrite likes_withLike, filter_app. f_equal.
  by rewrite filter_cons_True.
Qed.

(** Deleting the only like of a pair by its key leaves the pair without one. *)
Lemma likeOf_deleteLike_only s postId userId l :
  filter (likeOf postId userId) (likes s) = [l] →
  filter (likeOf postId userId) (likes (deleteLike (like_id l) s)) = [].
Proof.
  intros Hl. apply elem_of_nil_inv. intros x Hx.
  rewrite likes_deleteLike in Hx.
  apply list_elem_of_filter in Hx as [Hof Hx].
  apply list_elem_of_filter in Hx as [Hne Hx].
  assert (x ∈ filter (likeOf postId userId) (likes s)) as Hin
    by (apply list_elem_of_filter; done).
  rewrite Hl in Hin. apply list_elem_of_singleton in Hin. by subst.
Qed.

(** The insert of a like, on a post and on what is no post. *)
Lemma insertLike_post s postId userId :
  postId ∈ post_id <$> posts s →
  insertLike newId postId userId s = (Resolved tt, withLike newId postId userId s).
Proof. intros Hpost. unfold insertLike. by rewrite decide_True. Qed.

Lemma insertLike_no_post s postId userId :
  postId ∉ post_id <$> posts s →
  insertLike newId postId userId s = (Rejected, s).
Proof. intros Hpost. unfold insertLike. by rewrite decide_False. Qed.

(** ** toggleLike and checkUserLike, statement by statement *)

Lemma toggleLike_inserts s postId userId :
  filter (likeOf postId userId) (likes s) = [] →
  postId ∈ post_id <$> posts s →
  toggleLike newId postId userId s
  = (Resolved (mkToggleResult true), withLike newId postId userId s).
Proof.
  intros H Hpost. unfold toggleLike, attempt. run_db.
  rewrite H. cbn [limit take]. by rewrite insertLike_post.
Qed.

(** The call on what is no post rejects, and nothing is written. *)
Lemma toggleLike_refused s postId userId :
  filter (likeOf postId userId) (likes s) = [] →
  postId ∉ post_id <$> posts s →
  toggleLike newId postId userId s = (Rejected, s).
Proof.
  intros H Hpost. unfold toggleLike, attempt. run_db.
  rewrite H. cbn [limit take]. by rewrite insertLike_no_post.
Qed.

Lemma toggleLike_deletes s postId userId l rest :
  filter (likeOf postId userId) (likes s) = l :: rest →
  toggleLike newId postId userId s
  = (Resolved (mkToggleResult false), deleteLike (like_id l) s).
Proof.
  intros H. unfold toggleLike. run_db.
  by rewrite H.
Qed.

(** A call writes on [likes] only. *)
Lemma toggleLike_tables s postId userId :
  let s' := execDB (toggleLike newId postId userId) s in
  users s' = users s ∧ posts s' = posts s ∧ comments s' = comments s.
Proof.
  intros s'. subst s'. unfold execDB.
  destruct (filter (likeOf postId userId) (likes s)) as [|l rest] eqn:E.
  - destruct (decide (postId ∈ post_id <$> posts s)) as [Hpost|Hpost].
    + by rewrite (toggleLike_inserts _ _ _ E Hpost).
    + by rewrite (toggleLike_refused _ _ _ E Hpost).
  - by rewrite (toggleLike_deletes _ _ _ _ _ E).
Qed.

Lemma checkUserLike_eq s postId userId :
  checkUserLike postId userId s
  = (bool_decide (filter (likeOf postId userId) (likes s) ≠ []), s).
Proof.
  unfold checkUserLike. run_db. f_equal.
  rewrite limit_1. by destruct (filter _ _).
Qed.

(** A call keeps the pair at no more than one like. *)
Lemma toggleLike_atMostOne s postId userId :
  atMostOneLike postId userId s →
  atMostOneLike postId userId (execDB (toggleLike newId postId userId) s).
Proof.
  unfold atMostOneLike, execDB. intros Hone.
  destruct (filter (likeOf postId userId) (likes s)) as [|l [|l' rest]] eqn:E.
  - destruct (decide (postId ∈ post_id <$> posts s)) as [Hpost|Hpost].
    + rewrite (toggleLike_inserts _ _ _ E Hpost). cbn [fst snd].
      rewrite likeOf_withLike, E. simpl. lia.
    + rewrite (toggleLike_refused _ _ _ E Hpost). cbn [fst snd]. by rewrite E.
  - rewrite (toggleLike_deletes _ _ _ _ _ E). cbn [fst snd].
    rewrite (likeOf_deleteLike_only _ _ _ _ E). simpl. lia.
  - simpl in Hone. lia.
Qed.

(** One call on a post flips the answer of [checkUserLike], resolves with
    the new answer and keeps the pair at no more than one like. *)
Lemma toggleLike_flips s postId userId :
  postId ∈ post_id <$> posts s →
  atMostOneLike postId userId s →
  let r := evalDB (toggleLike newId postId userId) s in
  let s' := execDB (toggleLike newId postId userId) s in
  atMostOneLike postId userId s'
  ∧ r = Resolved (mkToggleResult (evalDB (checkUserLike postId userId) s'))
  ∧ evalDB (checkUserLike postId userId) s'
    = negb (evalDB (checkUserLike postId userId) s).
Proof.
  intros Hpost Hone r s'. split; [by apply toggleLike_atMostOne|].
  subst r s'. unfold atMostOneLike, evalDB, execDB in *.
  destruct (filter (likeOf postId userId) (likes s)) as [|l [|l' rest]] eqn:E.
  - rewrite (toggleLike_inserts _ _ _ E Hpost), !checkUserLike_eq. cbn [fst snd].
    rewrite likeOf_withLike, E. simpl. split; done.
  - rewrite (toggleLike_deletes _ _ _ _ _ E), !checkUserLike_eq. cbn [fst snd].
    rewrite (likeOf_deleteLike_only _ _ _ _ E), E. simpl. split; done.
  - simpl in Hone. lia.
Qed.

Lemma toggleTimes_S_exec s postId userId n :
  execDB (toggleTimes newId (S n) postId userId) s
  = execDB (toggleTimes newId n postId userId)
      (execDB (toggleLike newId postId userId) s).
Proof.
  unfold execDB. simpl. unfold bind, ret.
  destruct (toggleLike newId postId userId s) as [r s1]. simpl.
  by destruct (toggleTimes newId n postId userId s1).
Qed.

Lemma toggleTimes_S_eval s postId userId n :
  evalDB (toggleTimes newId (S n) postId userId) s
  = evalDB (toggleLike newId postId userId) s
    :: evalDB (toggleTimes newId n postId userId)
         (execDB (toggleLike newId postId userId) s).
Proof.
  unfold evalDB, execDB. simpl. unfold bind, ret.
  destruct (toggleLike newId postId userId s) as [r s1]. simpl.
  by destruct (toggleTimes newId n postId userId s1).
Qed.

Lemma toggleTimes_atMostOne s postId userId n :
  atMostOneLike postId userId s →
  atMostOneLike postId userId (execDB (toggleTimes newId n postId userId) s).
Proof.
  revert s. induction n as [|n IH]; intros s Hone; [done|].
  rewrite toggleTimes_S_exec. apply IH. by apply toggleLike_atMostOne.
Qed.

(** The toggle law from any store with at most one like of the pair. *)
Lemma toggleTimes_flips s postId userId n :
  postId ∈ post_id <$> posts s →
  atMostOneLike postId userId s →
  evalDB (checkUserLike postId userId)
    (execDB (toggleTimes newId n postId userId) s)
  = xorb (Nat.odd n) (evalDB (checkUserLike postId userId) s)
  ∧ ∀ (k : nat) r,
      evalDB (toggleTimes newId n postId userId) s !! k = Some r →
      r = Resolved (mkToggleResult
            (evalDB (checkUserLike postId userId)
               (execDB (toggleTimes newId (S k) postId userId) s))).
Proof.
  revert s. induction n as [|n IH]; intros s Hpost Hone.
  - split; [done | intros k r Hk; by destruct k].
  - destruct (toggleLike_flips s postId userId Hpost Hone) as (Hone' & Hr & Hneg).
    destruct (toggleLike_tables s postId userId) as (_ & Hposts & _).
    destruct (IH (execDB (toggleLike newId postId userId) s)) as [IHc IHr];
      [by rewrite Hposts|done|].
    split.
    + rewrite toggleTimes_S_exec, IHc, Hneg, Nat.odd_succ, <- Nat.negb_odd.
      by destruct (Nat.odd n); destruct (evalDB (checkUserLike postId userId) s).
    + intros [|k] r Hk; rewrite toggleTimes_S_eval in Hk; simpl in Hk.
      * injection Hk as <-. by rewrite toggleTimes_S_exec.
      * rewrite toggleTimes_S_exec. by apply IHr.
Qed.

(** C1: from a store with no like of (postId, userId), with [postId] a post
    of the store, after [n] calls of [toggleLike(postId, userId)] in
    sequence [checkUserLike(postId, userId)] is true when [n] is odd and
    false when [n] is even, and each call of the sequence returns, with as
    [liked] what [checkUserLike(postId, userId)] is after it. *)
Theorem toggle_law s postId userId (n : nat) :
  postId ∈ post_id <$> posts s →
  filter (likeOf postId userId) (likes s) = [] →
  evalDB (checkUserLike postId userId)
    (execDB (toggleTimes newId n postId userId) s) = Nat.odd n
  ∧ ∀ (k : nat) r,
      evalDB (toggleTimes newId n postId userId) s !! k = Some r →
      r = Resolved (mkToggleResult
            (evalDB (checkUserLike postId userId)
               (execDB (toggleTimes newId (S k) postId userId) s))).
Proof.
  intros Hpost Hnone.
  assert (atMostOneLike postId userId s) as Hone
    by (unfold atMostOneLike; rewrite Hnone; simpl; lia).
  destruct (toggleTimes_flips s postId userId n Hpost Hone) as [Hc Hr].
  split; [|done]. rewrite Hc. unfold evalDB at 1.
  rewrite checkUserLike_eq, Hnone. simpl. by destruct (Nat.odd n).
Qed.

(** ** The keys of likes *)

Lemma deleteLike_likeKeys s (id : string) : likeKeys s → likeKeys (deleteLike id s).
Proof. unfold likeKeys. rewrite likes_deleteLike. apply NoDup_key_filter. Qed.

Lemma withLike_likeKeys s postId userId :
  (∀ used, newId used ∉ used) →
  likeKeys s → likeKeys (withLike newId postId userId s).
Proof.
  unfold likeKeys. intros Hfresh Hkeys.
  rewrite likes_withLike, fmap_app. apply NoDup_app. split_and!; [done| |].
  - intros k Hk [->|[]%elem_of_nil]%elem_of_cons. by apply Hfresh in Hk.
  - apply NoDup_singleton.
Qed.

(** With a store that hands out fresh keys, [toggleLike] keeps the keys of
    [likes] distinct. *)
Lemma toggleLike_likeKeys s postId userId :
  (∀ used, newId used ∉ used) →
  likeKeys s → likeKeys (execDB (toggleLike newId postId userId) s).
Proof.
  intros Hfresh Hkeys. unfold execDB.
  destruct (filter (likeOf postId userId) (likes s)) as [|l rest] eqn:E.
  - destruct (decide (postId ∈ post_id <$> posts s)) as [Hpost|Hpost].
    + rewrite (toggleLike_inserts _ _ _ E Hpost). by apply withLike_likeKeys.
    + by rewrite (toggleLike_refused _ _ _ E Hpost).
  - rewrite (toggleLike_deletes _ _ _ _ _ E). by apply deleteLike_likeKeys.
Qed.

(** ** Calls in flight *)

(** The two statements of a call, served back to back, are [toggleLike]. *)
Lemma stepCall_twice s postId userId :
  (let! c := stepCall newId (Issued postId userId) in stepCall newId c) s
  = (settled (evalDB (toggleLike newId postId userId) s),
     execDB (toggleLike newId postId userId) s).
Proof.
  unfold stepCall, toggleLike, attempt. run_db.
  destruct (limit 1 _); [|done].
  by destruct (insertLike newId postId userId s) as [[[]|] s1].
Qed.

Lemma stepAt_Some (i : nat) (calls : list Call) (c : Call) s :
  calls !! i = Some c →
  stepAt newId i calls s
  = (<[i := (stepCall newId c s).1]> calls, (stepCall newId c s).2).
Proof.
  intros Hi. unfold stepAt. rewrite Hi. unfold bind, ret.
  by destruct (stepCall newId c s).
Qed.

Lemma stepAt_None (i : nat) (calls : list Call) s :
  calls !! i = None → stepAt newId i calls s = (calls, s).
Proof. intros Hi. unfold stepAt. by rewrite Hi. Qed.

(** One call served to its end among calls of the same pair. *)
Lemma stepAt_twice (i : nat) (calls calls2 : list Call) s s2 postId userId :
  Forall (λ c, c = Issued postId userId ∨ (∃ r, c = Returned r) ∨ c = Thrown) calls →
  atMostOneLike postId userId s →
  (let! calls1 := stepAt newId i calls in stepAt newId i calls1) s = (calls2, s2) →
  Forall (λ c, c = Issued postId userId ∨ (∃ r, c = Returned r) ∨ c = Thrown) calls2
  ∧ atMostOneLike postId userId s2.
Proof.
  intros Hcalls Hone. unfold bind.
  destruct (calls !! i) as [c|] eqn:Hi; cycle 1.
  { rewrite !(stepAt_None _ _ _ Hi). by intros [= <- <-]. }
  assert (i < length calls)%nat as Hlt by (by eapply lookup_lt_Some).
  rewrite (stepAt_Some _ _ _ _ Hi).
  erewrite stepAt_Some by (by apply list_lookup_insert_eq).
  rewrite list_insert_insert_eq.
  pose proof (proj1 (Forall_lookup _ _) Hcalls i c Hi) as [->|[[r ->]| ->]].
  - pose proof (stepCall_twice s postId userId) as Htwice.
    unfold bind in Htwice.
    destruct (stepCall newId (Issued postId userId) s) as [c1 s1].
    cbn [fst snd]. rewrite Htwice. cbn [fst snd]. intros [= <- <-]. split.
    + apply Forall_insert; [done|]. right.
      destruct (evalDB (toggleLike newId postId userId) s); simpl; eauto.
    + by apply toggleLike_atMostOne.
  - unfold stepCall, ret. cbn [fst snd]. intros [= <- <-].
    by rewrite (list_insert_id _ _ _ Hi).
  - unfold stepCall, ret. cbn [fst snd]. intros [= <- <-].
    by rewrite (list_insert_id _ _ _ Hi).
Qed.

Lemma serially_keeps_one (order : list nat) (calls calls' : list Call) s s'
    postId userId :
  Forall (λ c, c = Issued postId userId ∨ (∃ r, c = Returned r) ∨ c = Thrown) calls →
  atMostOneLike postId userId s →
  runSchedule newId (serially order) calls s = (calls', s') →
  Forall (λ c, c = Issued postId userId ∨ (∃ r, c = Returned r) ∨ c = Thrown) calls'
  ∧ atMostOneLike postId userId s'.
Proof.
  revert calls s. induction order as [|i order IH]; intros calls s Hcalls Hone.
  { by intros [= <- <-]. }
  unfold serially. rewrite bind_cons. fold (serially order).
  change ([i; i] ++ serially order) with (i :: i :: serially order).
  cbn [runSchedule]. unfold bind at 1 2.
  destruct (stepAt newId i calls s) as [calls1 s1] eqn:E1.
  destruct (stepAt newId i calls1 s1) as [calls2 s2] eqn:E2.
  destruct (stepAt_twice i calls calls2 s s2 postId userId Hcalls Hone)
    as [Hcalls2 Hone2]; [unfold bind; by rewrite E1|].
  by apply IH.
Qed.

(** C2, as the code has it: the lookup and the write of [toggleLike] are two
    statements, and the pair keeps at most one like when the calls are served
    one after another, whatever their order: from a store with at most one
    like of the pair, after the statements of [N] calls for the pair were
    served call by call, the pair has at most one like and no call is left
    between its lookup and its write. *)
Theorem toggleLike_serial (N : nat) (order : list nat) s postId userId :
  atMostOneLike postId userId s →
  let run :=
    runSchedule newId (serially order) (replicate N (Issued postId userId)) s in
  Forall notSuspended run.1 ∧ atMostOneLike postId userId run.2.
Proof.
  intros Hone run. destruct run as [calls' s'] eqn:Hrun. cbn [fst snd].
  destruct (serially_keeps_one order (replicate N (Issued postId userId)) calls'
              s s' postId userId) as [Hcalls Hone']; [|done|done|].
  { apply Forall_replicate. by left. }
  split; [|done]. eapply Forall_impl; [exact Hcalls|].
  by intros c [->|[[r ->]| ->]].
Qed.

(** C10: when the pair has more than one like, with the keys of [likes]
    distinct, [toggleLike] returns [liked = false], deletes the one row its
    lookup fetched and no other, and [checkUserLike] is still true. *)
Theorem toggleLike_duplicates s postId userId :
  likeKeys s →
  (2 ≤ length (filter (likeOf postId userId) (likes s)))%nat →
  let r := evalDB (toggleLike newId postId userId) s in
  let s' := execDB (toggleLike newId postId userId) s in
  r = Resolved (mkToggleResult false)
  ∧ (∃ l, head (filter (likeOf postId userId) (likes s)) = Some l
          ∧ likes s ≡ₚ l :: likes s')
  ∧ evalDB (checkUserLike postId userId) s' = true.
Proof.
  unfold likeKeys, evalDB, execDB. intros Hkeys Htwo.
  destruct (filter (likeOf postId userId) (likes s)) as [|l [|l' rest]] eqn:E;
    [simpl in Htwo; lia | simpl in Htwo; lia |].
  rewrite (toggleLike_deletes _ _ _ _ _ E), checkUserLike_eq. cbn [fst snd].
  assert (l ∈ likes s ∧ l' ∈ likes s ∧ likeOf postId userId l') as (Hl & Hl' & Hof).
  { assert (l ∈ filter (likeOf postId userId) (likes s)) as H1
      by (rewrite E; left).
    assert (l' ∈ filter (likeOf postId userId) (likes s)) as H2
      by (rewrite E; right; left).
    apply list_elem_of_filter in H1, H2. tauto. }
  assert (like_id l' ≠ like_id l) as Hne.
  { pose proof (NoDup_key_filter like_id (likeOf postId userId) _ Hkeys) as Hnd.
    rewrite E, !fmap_cons in Hnd. apply NoDup_cons_1_1 in Hnd.
    apply not_elem_of_cons in Hnd. intros Heq. by destruct Hnd as [[] _]. }
  split_and!; [done| |].
  - exists l. split; [done|]. rewrite likes_deleteLike.
    by apply (delete_by_key like_id).
  - apply bool_decide_eq_true. intros Hnil.
    assert (l' ∈ filter (likeOf postId userId) (likes (deleteLike (like_id l) s))) as Hin.
    { rewrite likes_deleteLike. by rewrite !list_elem_of_filter. }
    rewrite Hnil in Hin. by apply elem_of_nil in Hin.
Qed.

(** C6: [addLike] inserts without looking: two calls in sequence on a post
    of the store both resolve and add two likes of the pair, so the pair
    has more than one afterwards. *)
Theorem addLike_twice s postId userId :
  postId ∈ post_id <$> posts s →
  let run := (try! _ := addLike newId postId userId in
              addLike newId postId userId) s in
  run.1 = Resolved tt
  ∧ length (filter (likeOf postId userId) (likes run.2))
    = (2 + length (filter (likeOf postId userId) (likes s)))%nat
  ∧ ¬ atMostOneLike postId userId run.2.
Proof.
  intros Hpost run. subst run. unfold atMostOneLike, addLike, attempt.
  rewrite (insertLike_post _ _ _ Hpost), insertLike_post by done. cbn [fst snd].
  rewrite !likeOf_withLike, !length_app. simpl. split_and!; [done|lia..].
Qed.

(** C9: a point lookup on a key that no row has returns the absent value and
    leaves the store as it was. *)
Theorem lookups_absent s :
  (∀ id, (∀ u, u ∈ users s → user_id u ≠ id) → getUser id s = (None, s))
  ∧ (∀ username, (∀ u, u ∈ users s → user_username u ≠ username) →
       getUserByUsername username s = (None, s))
  ∧ (∀ id, (∀ p, p ∈ posts s → post_id p ≠ id) → getPost id s = (None, s)).
Proof.
  split_and!; intros k Hno;
    unfold getUser, getUserByUsername, getPost; run_db;
    (rewrite filter_none; [done | intros x Hx; by apply Hno]).
Qed.

(** ** The rows of getPosts *)

Lemma elem_of_joinedRows s (p : Post) (ol : option Like) (oc : option Comment) :
  (p, ol, oc) ∈ joinedRows s
  ↔ p ∈ posts s
    ∧ match ol with
      | Some l => l ∈ likes s ∧ like_postId l = post_id p
      | None => ∀ l, l ∈ likes s → like_postId l ≠ post_id p
      end
    ∧ match oc with
      | Some c => c ∈ comments s ∧ comment_postId c = post_id p
      | None => ∀ c, c ∈ comments s → comment_postId c ≠ post_id p
      end.
Proof.
  unfold joinedRows. rewrite !elem_of_leftJoin. unfold onLikes, onComments.
  cbn [fst].
  assert (∀ (x y : string), x = y ↔ y = x) as Hsym by (split; congruence).
  destruct ol as [l|], oc as [c|];
    repeat setoid_rewrite (Hsym (post_id p)); tauto.
Qed.

(** Every post has a row in the join. *)
Lemma joinedRows_total s (p : Post) :
  p ∈ posts s → ∃ ol oc, (p, ol, oc) ∈ joinedRows s.
Proof.
  intros Hp. unfold joinedRows.
  destruct (leftJoin_total onLikes (posts s) (likes s) p Hp) as [ol Hol].
  destruct (leftJoin_total onComments _ (comments s) (p, ol) Hol) as [oc Hoc].
  eauto.
Qed.

(** The keys of [likes] and of [comments] that the group of a post shows are
    those of the likes and of the comments of the post. *)
Lemma group_shows s (v : string) :
  v ∈ (λ r, post_id r.1.1) <$> joinedRows s →
  let g := filter (λ r, post_id r.1.1 = v) (joinedRows s) in
  (∀ x, x ∈ omap (λ r, like_id <$> r.1.2) g
        ↔ x ∈ like_id <$> filter (λ l, like_postId l = v) (likes s))
  ∧ (∀ x, x ∈ omap (λ r, comment_id <$> r.2) g
          ↔ x ∈ comment_id <$> filter (λ c, comment_postId c = v) (comments s)).
Proof.
  intros ([[p0 ol0] oc0] & -> & Hr0)%list_elem_of_fmap. cbn [fst snd].
  apply elem_of_joinedRows in Hr0 as (Hp0 & Hol0 & Hoc0).
  split; intros x; rewrite list_elem_of_omap, list_elem_of_fmap.
  - split.
    + intros ([[p ol] oc] & [Hv Hr]%list_elem_of_filter & Hx).
      cbn [fst snd] in Hv, Hx. destruct ol as [l|]; [|done].
      injection Hx as <-. apply elem_of_joinedRows in Hr as (_ & [Hl Hpl] & _).
      exists l. split; [done|]. apply list_elem_of_filter. by rewrite Hpl.
    + intros (l & -> & [Hv Hl]%list_elem_of_filter).
      assert ((p0, Some l) ∈ leftJoin onLikes (posts s) (likes s)) as Hpl
        by (by apply elem_of_leftJoin).
      destruct (leftJoin_total onComments _ (comments s) _ Hpl) as [oc Hoc].
      exists (p0, Some l, oc). split; [|done]. by apply list_elem_of_filter.
  - split.
    + intros ([[p ol] oc] & [Hv Hr]%list_elem_of_filter & Hx).
      cbn [fst snd] in Hv, Hx. destruct oc as [c|]; [|done].
      injection Hx as <-. apply elem_of_joinedRows in Hr as (_ & _ & [Hc Hpc]).
      exists c. split; [done|]. apply list_elem_of_filter. by rewrite Hpc.
    + intros (c & -> & [Hv Hc]%list_elem_of_filter).
      exists (p0, ol0, Some c). split; [|done].
      apply list_elem_of_filter. split; [done|].
      apply elem_of_joinedRows. by destruct ol0.
Qed.

Lemma mkPost_eta (p : Post) :
  mkPost (post_id p) (post_authorName p) (post_authorHandle p)
    (post_authorAvatar p) (post_content p) (post_image p) (post_createdAt p) = p.
Proof. by destruct p. Qed.

Lemma elem_of_getPosts s (r : PostWithCounts) :
  r ∈ evalDB getPosts s
  ↔ ∃ v, v ∈ (λ r, post_id r.1.1) <$> joinedRows s
         ∧ selectCounts (filter (λ r, post_id r.1.1 = v) (joinedRows s)) = Some r.
Proof.
  unfold getPosts. run_db.
  rewrite orderByDesc_Permutation, list_elem_of_omap.
  setoid_rewrite elem_of_groupBy. split.
  - intros (g & (v & -> & Hv) & Hsel). eauto.
  - intros (v & Hv & Hsel). eauto.
Qed.

(** What a row of the result says: its counts are the numbers of distinct
    keys among the likes and the comments of its post. *)
Lemma getPosts_row_counts s (r : PostWithCounts) :
  r ∈ evalDB getPosts s →
  likeCount r
  = Z.of_nat (length (remove_dups
      (like_id <$> filter (λ l, like_postId l = post_id (pc_post r)) (likes s))))
  ∧ commentCount r
    = Z.of_nat (length (remove_dups
        (comment_id <$>
           filter (λ c, comment_postId c = post_id (pc_post r)) (comments s)))).
Proof.
  intros (v & Hv & Hsel)%elem_of_getPosts.
  destruct (group_shows s v Hv) as [Hlikes Hcomments]. cbv zeta in *.
  destruct (filter (λ r, post_id r.1.1 = v) (joinedRows s))
    as [|[[p ol] oc] g] eqn:E; [done|].
  assert (post_id p = v) as Hp.
  { assert ((p, ol, oc) ∈ filter (λ r, post_id r.1.1 = v) (joinedRows s)) as Hin
      by (rewrite E; left).
    by apply list_elem_of_filter in Hin as [? _]. }
  injection Hsel as <-. cbn [pc_post likeCount commentCount post_id].
  unfold countDistinct. rewrite Hp.
  split; f_equal; by apply length_remove_dups_same.
Qed.

(** Every post has its row in the result. *)
Lemma getPosts_total s (p : Post) :
  postKeys s → p ∈ posts s → ∃ r, r ∈ evalDB getPosts s ∧ pc_post r = p.
Proof.
  intros Hkeys Hp. destruct (joinedRows_total s p Hp) as (ol & oc & Hrow).
  assert ((p, ol, oc) ∈ filter (λ r, post_id r.1.1 = post_id p) (joinedRows s))
    as Hin by (by apply list_elem_of_filter).
  destruct (filter (λ r, post_id r.1.1 = post_id p) (joinedRows s))
    as [|[[p' ol'] oc'] g] eqn:E; [by apply elem_of_nil in Hin|].
  assert (p' = p) as ->.
  { assert ((p', ol', oc') ∈ filter (λ r, post_id r.1.1 = post_id p) (joinedRows s))
      as Hin' by (rewrite E; left).
    apply list_elem_of_filter in Hin' as [Hid Hrow']. cbn [fst] in Hid.
    apply elem_of_joinedRows in Hrow' as [Hp' _].
    by apply (NoDup_key_eq post_id (posts s)). }
  eexists. split.
  - apply elem_of_getPosts. exists (post_id p). split.
    + by apply (list_elem_of_fmap_2' _ _ (p, ol, oc)).
    + rewrite E. reflexivity.
  - cbn [pc_post]. apply mkPost_eta.
Qed.

(** [getLikesCount] is the text of the number of likes of the post. *)
Lemma getLikesCount_text s postId :
  evalDB (getLikesCount postId) s
  = JsString (pretty (Z.of_nat
      (length (filter (λ l, like_postId l = postId) (likes s))))).
Proof.
  unfold getLikesCount. run_db. unfold countAll. cbn [head count].
  apply orElse_bigint.
Qed.

(** C3: with the keys of [likes] and of [comments] distinct, every row of
    [getPosts()] carries as [commentCount] the length of
    [getCommentsByPost] of its post; its [likeCount] is the number of likes
    that [getLikesCount] of its post counts, but [getLikesCount], whose
    [COUNT] is not cast, returns the text of that number and not the
    number: the two are not equal. *)
Theorem getLikesCount_not_likeCount s (r : PostWithCounts) :
  likeKeys s → commentKeys s →
  r ∈ evalDB getPosts s →
  commentCount r
  = Z.of_nat (length (evalDB (getCommentsByPost (post_id (pc_post r))) s))
  ∧ evalDB (getLikesCount (post_id (pc_post r))) s
    = JsString (pretty (likeCount r))
  ∧ evalDB (getLikesCount (post_id (pc_post r))) s ≠ integer (likeCount r).
Proof.
  unfold likeKeys, commentKeys. intros Hlikes Hcomments Hr.
  assert (evalDB (getLikesCount (post_id (pc_post r))) s
          = JsString (pretty (likeCount r))) as Htext.
  { destruct (getPosts_row_counts s r Hr) as [-> _].
    rewrite getLikesCount_text. do 3 f_equal. symmetry.
    apply (length_remove_dups_keys like_id); [|done].
    by apply NoDup_key_filter. }
  split_and!; [|done|by rewrite Htext].
  destruct (getPosts_row_counts s r Hr) as [_ ->].
  unfold evalDB, getCommentsByPost, query, where_. cbn [fst].
  rewrite orderBy_Permutation. f_equal.
  apply (length_remove_dups_keys comment_id); [|done].
  by apply NoDup_key_filter.
Qed.

(** C4: with the keys of [posts] distinct, [getPosts()] has a row for every
    post of the store, and the row of a post without likes and without
    comments has [likeCount = 0] and [commentCount = 0]. *)
Theorem getPosts_keeps_every_post s :
  postKeys s →
  (∀ p, p ∈ posts s → ∃ r, r ∈ evalDB getPosts s ∧ pc_post r = p)
  ∧ (∀ p, p ∈ posts s →
       (∀ l, l ∈ likes s → like_postId l ≠ post_id p) →
       (∀ c, c ∈ comments s → comment_postId c ≠ post_id p) →
       mkPostWithCounts p 0 0 ∈ evalDB getPosts s).
Proof.
  intros Hkeys. split; [intros p Hp; by apply getPosts_total|].
  intros p Hp Hnolikes Hnocomments.
  destruct (getPosts_total s p Hkeys Hp) as (r & Hr & Hrp).
  destruct (getPosts_row_counts s r Hr) as [Hlc Hcc].
  rewrite Hrp, filter_none in Hlc by done.
  rewrite Hrp, filter_none in Hcc by done.
  destruct r as [p' lc cc]. cbn in Hrp, Hlc, Hcc. by subst.
Qed.

(** C5: [getPostsByRoom] does not look at its argument: for any two rooms it
    returns the same list and leaves the same store, and that list is all
    the posts of the store by descending creation time. *)
Theorem getPostsByRoom_any_room s (roomId1 roomId2 : string) :
  getPostsByRoom roomId1 s = getPostsByRoom roomId2 s
  ∧ evalDB (getPostsByRoom roomId1) s ≡ₚ posts s
  ∧ StronglySorted (descending post_createdAt) (evalDB (getPostsByRoom roomId1) s).
Proof.
  split_and!; [done|apply orderByDesc_Permutation|apply orderByDesc_sorted].
Qed.

(** C7: [getCommentsByPost(postId)] returns the comments of the post, each
    once, by ascending creation time, and [getComments(postId)] is the
    [content] of these rows in the same order. *)
Theorem comments_oldest_first s postId :
  let result := evalDB (getCommentsByPost postId) s in
  result ≡ₚ filter (λ c, comment_postId c = postId) (comments s)
  ∧ StronglySorted (ascending comment_createdAt) result
  ∧ evalDB (getComments postId) s = comment_content <$> result.
Proof.
  split_and!; [apply orderBy_Permutation|apply orderBy_sorted|].
  unfold getComments, getCommentsByPost. run_db.
  by rewrite <- list_fmap_compose.
Qed.

(** C8: [getPosts()] and [getPostsByRoom(roomId)] return the posts by
    descending creation time: with the keys of [posts] distinct, both lists
    are ordered newest first, and of two posts of the store the one created
    later comes before the one created earlier in both. *)
Theorem posts_newest_first s (roomId : string) :
  postKeys s →
  let byRoom := evalDB (getPostsByRoom roomId) s in
  let feed := pc_post <$> evalDB getPosts s in
  StronglySorted (descending post_createdAt) byRoom
  ∧ StronglySorted (descending post_createdAt) feed
  ∧ ∀ p1 p2, p1 ∈ posts s → p2 ∈ posts s →
      post_createdAt p1 < post_createdAt p2 →
      appearsBefore p2 p1 byRoom ∧ appearsBefore p2 p1 feed.
Proof.
  intros Hkeys byRoom feed.
  assert (StronglySorted (descending post_createdAt) byRoom) as HbyRoom
    by apply orderByDesc_sorted.
  assert (StronglySorted (descending post_createdAt) feed) as Hfeed.
  { apply (StronglySorted_fmap _
             (descending (λ r, post_createdAt (pc_post r)))); [done|].
    apply orderByDesc_sorted. }
  split_and!; [done..|]. intros p1 p2 Hp1 Hp2 Hlt.
  assert (∀ p, p ∈ posts s → p ∈ byRoom ∧ p ∈ feed) as Hin.
  { intros p Hp. split.
    - unfold byRoom, getPostsByRoom. run_db.
      by rewrite orderByDesc_Permutation.
    - destruct (getPosts_total s p Hkeys Hp) as (r & Hr & <-).
      by apply list_elem_of_fmap_2. }
  destruct (Hin p1 Hp1), (Hin p2 Hp2).
  split; by apply (descending_appearsBefore post_createdAt).
Qed.

End Properties.

(** ** The sample store *)

Lemma length_append (x y : string) :
  String.length (x +:+ y) = (String.length x + String.length y)%nat.
Proof. induction x as [|a x IH]; simpl; [done|]. by rewrite IH. Qed.

(** [Sample.freshId] hands out a key that is not in use. *)
Lemma freshId_fresh (used : list string) : Sample.freshId used ∉ used.
Proof.
  assert (∀ x, x ∈ used →
            (String.length x ≤ String.length (foldr String.append "" used))%nat)
    as Hlen.
  { induction used as [|y used IH]; intros x Hx; [by apply elem_of_nil in Hx|].
    simpl. rewrite length_append.
    apply elem_of_cons in Hx as [->|Hx]; [lia|]. specialize (IH x Hx). lia. }
  intros Hin. apply Hlen in Hin. unfold Sample.freshId in Hin.
  rewrite length_append in Hin. simpl in Hin. lia.
Qed.

Lemma feed_keys :
  likeKeys Sample.feed ∧ commentKeys Sample.feed ∧ postKeys Sample.feed.
Proof.
  unfold likeKeys, commentKeys, postKeys.
  split_and!; apply (bool_decide_unpack _); vm_compute; exact I.
Defined.

Lemma feed_getPosts :
  evalDB getPosts Sample.feed
  = [mkPostWithCounts Sample.post2 0 0; mkPostWithCounts Sample.post1 2 2].
Proof. vm_compute. reflexivity. Qed.

(** The first like of a post and its withdrawal. *)
Example toggle_twice :
  let first := toggleLike Sample.freshId "p2" "u1" Sample.feed in
  let second := toggleLike Sample.freshId "p2" "u1" first.2 in
  first.1 = Resolved (mkToggleResult true)
  ∧ evalDB (getLikesCount "p2") first.2 = JsString "1"
  ∧ second.1 = Resolved (mkToggleResult false)
  ∧ evalDB (getLikesCount "p2") second.2 = JsString "0".
Proof. by vm_compute. Qed.

(** A like on what is no post: the store refuses the insert, the call
    rejects and the store is as it was. *)
Example toggle_no_post :
  toggleLike Sample.freshId "p9" "u1" Sample.feed = (Rejected, Sample.feed).
Proof. by vm_compute. Qed.

Example feed_getComments :
  evalDB (getComments "p1") Sample.feed = ["world"; "hello"].
Proof. by vm_compute. Qed.

Example feed_getPostsByRoom :
  evalDB (getPostsByRoom "lobby") Sample.feed = [Sample.post2; Sample.post1].
Proof. by vm_compute. Qed.

(** ** The theorems at the sample store *)

Lemma toggle_law_witness :
  "p2" ∈ post_id <$> posts Sample.feed
  ∧ filter (likeOf "p2" "u1") (likes Sample.feed) = []
  ∧ evalDB (checkUserLike "p2" "u1")
      (execDB (toggleTimes Sample.freshId 3 "p2" "u1") Sample.feed) = Nat.odd 3
  ∧ ∀ (k : nat) r,
      evalDB (toggleTimes Sample.freshId 3 "p2" "u1") Sample.feed !! k = Some r →
      r = Resolved (mkToggleResult
            (evalDB (checkUserLike "p2" "u1")
               (execDB (toggleTimes Sample.freshId (S k) "p2" "u1") Sample.feed))).
Proof.
  assert ("p2" ∈ post_id <$> posts Sample.feed) as Hpost
    by (apply (bool_decide_unpack _); vm_compute; exact I).
  split; [done|]. split; [reflexivity|].
  apply (toggle_law Sample.freshId Sample.feed "p2" "u1" 3 Hpost). reflexivity.
Defined.

Lemma addLike_twice_witness :
  "p2" ∈ post_id <$> posts Sample.feed
  ∧ let run := (try! _ := addLike Sample.freshId "p2" "u1" in
                addLike Sample.freshId "p2" "u1") Sample.feed in
    run.1 = Resolved tt
    ∧ length (filter (likeOf "p2" "u1") (likes run.2))
      = (2 + length (filter (likeOf "p2" "u1") (likes Sample.feed)))%nat
    ∧ ¬ atMostOneLike "p2" "u1" run.2.
Proof.
  assert ("p2" ∈ post_id <$> posts Sample.feed) as Hpost
    by (apply (bool_decide_unpack _); vm_compute; exact I).
  split; [done|].
  exact (addLike_twice Sample.freshId Sample.feed "p2" "u1" Hpost).
Defined.

Lemma toggleLike_serial_witness :
  atMostOneLike "p1" "u1" Sample.feed
  ∧ let run :=
      runSchedule Sample.freshId (serially [2; 0; 1]%nat)
        (replicate 3 (Issued "p1" "u1")) Sample.feed in
    Forall notSuspended run.1 ∧ atMostOneLike "p1" "u1" run.2.
Proof.
  assert (atMostOneLike "p1" "u1" Sample.feed) as Hone
    by (unfold atMostOneLike; vm_compute; lia).
  split; [exact Hone|].
  exact (toggleLike_serial Sample.freshId 3 [2; 0; 1]%nat Sample.feed "p1" "u1" Hone).
Defined.

(** Two calls for a pair without a like, the two lookups served before the
    two writes: both calls insert and return [liked = true], and the pair
    has two likes. *)
Lemma toggleLike_interleaved :
  let run :=
    runSchedule Sample.freshId [0; 1; 0; 1]%nat
      (replicate 2 (Issued "p2" "u1")) Sample.feed in
  atMostOneLike "p2" "u1" Sample.feed
  ∧ run.1 = [Returned (mkToggleResult true); Returned (mkToggleResult true)]
  ∧ filter (likeOf "p2" "u1") (likes run.2)
    = [mkLike "#l1l3" "p2" "u1"; mkLike "#l1l3#l1l3" "p2" "u1"]
  ∧ ¬ atMostOneLike "p2" "u1" run.2.
Proof.
  split_and!; [unfold atMostOneLike; vm_compute; lia|reflexivity..|].
  unfold atMostOneLike. vm_compute. lia.
Qed.

Lemma getLikesCount_not_likeCount_witness :
  likeKeys Sample.feed ∧ commentKeys Sample.feed
  ∧ mkPostWithCounts Sample.post1 2 2 ∈ evalDB getPosts Sample.feed
  ∧ commentCount (mkPostWithCounts Sample.post1 2 2)
    = Z.of_nat (length (evalDB (getCommentsByPost "p1") Sample.feed))
  ∧ evalDB (getLikesCount "p1") Sample.feed = JsString "2"
  ∧ evalDB (getLikesCount "p1") Sample.feed ≠ JsNumber 2.
Proof.
  destruct feed_keys as (Hlikes & Hcomments & _).
  assert (mkPostWithCounts Sample.post1 2 2 ∈ evalDB getPosts Sample.feed) as Hrow
    by (rewrite feed_getPosts; right; left).
  destruct (getLikesCount_not_likeCount Sample.feed _ Hlikes Hcomments Hrow)
    as (Hcc & Htext & Hne).
  split_and!; done.
Defined.

Lemma getPosts_keeps_every_post_witness :
  postKeys Sample.feed
  ∧ Sample.post2 ∈ posts Sample.feed
  ∧ (∀ l, l ∈ likes Sample.feed → like_postId l ≠ post_id Sample.post2)
  ∧ (∀ c, c ∈ comments Sample.feed → comment_postId c ≠ post_id Sample.post2)
  ∧ mkPostWithCounts Sample.post2 0 0 ∈ evalDB getPosts Sample.feed
  ∧ ∃ r, r ∈ evalDB getPosts Sample.feed ∧ pc_post r = Sample.post1.
Proof.
  destruct feed_keys as (_ & _ & Hposts).
  destruct (getPosts_keeps_every_post Sample.feed Hposts) as [Hall Hquiet].
  assert (Sample.post2 ∈ posts Sample.feed) as Hin by (right; left).
  assert (∀ l, l ∈ likes Sample.feed → like_postId l ≠ post_id Sample.post2)
    as Hnolikes
    by (apply Forall_forall, (bool_decide_unpack _); vm_compute; exact I).
  assert (∀ c, c ∈ comments Sample.feed → comment_postId c ≠ post_id Sample.post2)
    as Hnocomments
    by (apply Forall_forall, (bool_decide_unpack _); vm_compute; exact I).
  split_and!; [done..| |].
  - by apply Hquiet.
  - apply Hall. left.
Defined.

Lemma posts_newest_first_witness :
  postKeys Sample.feed
  ∧ post_createdAt Sample.post1 < post_createdAt Sample.post2
  ∧ appearsBefore Sample.post2 Sample.post1
      (evalDB (getPostsByRoom "lobby") Sample.feed)
  ∧ appearsBefore Sample.post2 Sample.post1 (pc_post <$> evalDB getPosts Sample.feed).
Proof.
  destruct feed_keys as (_ & _ & Hposts).
  destruct (posts_newest_first Sample.feed "lobby" Hposts) as (_ & _ & Hbefore).
  assert (post_createdAt Sample.post1 < post_createdAt Sample.post2) as Hlt
    by reflexivity.
  split_and!; [done..| |]; apply Hbefore; first [done|left|right; left].
Defined.

(** C8, read by the order of the inserts: two posts that the store makes
    in one instant.  [createPost] returns [P1], then [P2]; their keys
    differ and their [createdAt] is equal, so [ORDER BY createdAt DESC]
    holds of the list with [P1] first, and [P2] does not come before [P1]
    in [getPostsByRoom] nor in [getPosts]. *)
Lemma posts_same_instant :
  let P1 := mkPost "#" "Ada" "@Ada" "avatar.png" "one" None 300 in
  let P2 := mkPost "##" "Bob" "@Bob" "avatar.png" "two" None 300 in
  let s := execDB SampleInserts.sameInstant (mkStore [] [] [] []) in
  evalDB SampleInserts.sameInstant (mkStore [] [] [] []) = (Some P1, Some P2)
  ∧ posts s = [P1; P2]
  ∧ postKeys s
  ∧ StronglySorted (descending post_createdAt) [P1; P2]
  ∧ ¬ appearsBefore P2 P1 (evalDB (getPostsByRoom "lobby") s)
  ∧ ¬ appearsBefore P2 P1 (pc_post <$> evalDB getPosts s).
Proof.
  intros P1 P2 s.
  assert (evalDB (getPostsByRoom "lobby") s = [P1; P2]) as -> by reflexivity.
  assert (pc_post <$> evalDB getPosts s = [P1; P2]) as -> by reflexivity.
  assert (¬ appearsBefore P2 P1 [P1; P2]) as Hnot.
  { intros (i & j & Hlt & Hi & Hj).
    destruct i as [|[|i]]; [done| |done].
    destruct j as [|[|j]]; [lia|done|done]. }
  split_and!; [reflexivity|reflexivity| | |done|done].
  - apply (bool_decide_unpack _). vm_compute. exact I.
  - repeat constructor; unfold descending; simpl; lia.
Qed.

Lemma lookups_absent_witness :
  ((∀ u, u ∈ users Sample.feed → user_id u ≠ "u9")
   ∧ getUser "u9" Sample.feed = (None, Sample.feed))
  ∧ ((∀ u, u ∈ users Sample.feed → user_username u ≠ "bob")
     ∧ getUserByUsername "bob" Sample.feed = (None, Sample.feed))
  ∧ ((∀ p, p ∈ posts Sample.feed → post_id p ≠ "p9")
     ∧ getPost "p9" Sample.feed = (None, Sample.feed)).
Proof.
  destruct (lookups_absent Sample.feed) as (Huser & Hname & Hpost).
  assert (∀ u, u ∈ users Sample.feed → user_id u ≠ "u9") as Hnouser
    by (apply Forall_forall, (bool_decide_unpack _); vm_compute; exact I).
  assert (∀ u, u ∈ users Sample.feed → user_username u ≠ "bob") as Hnoname
    by (apply Forall_forall, (bool_decide_unpack _); vm_compute; exact I).
  assert (∀ p, p ∈ posts Sample.feed → post_id p ≠ "p9") as Hnopost
    by (apply Forall_forall, (bool_decide_unpack _); vm_compute; exact I).
  split_and!; [done|by apply Huser|done|by apply Hname|done|by apply Hpost].
Defined.

Lemma toggleLike_duplicates_witness :
  likeKeys Sample.doubled
  ∧ (2 ≤ length (filter (likeOf "p1" "u1") (likes Sample.doubled)))%nat
  ∧ let r := evalDB (toggleLike Sample.freshId "p1" "u1") Sample.doubled in
    let s' := execDB (toggleLike Sample.freshId "p1" "u1") Sample.doubled in
    r = Resolved (mkToggleResult false)
    ∧ (∃ l, head (filter (likeOf "p1" "u1") (likes Sample.doubled)) = Some l
            ∧ likes Sample.doubled ≡ₚ l :: likes s')
    ∧ evalDB (checkUserLike "p1" "u1") s' = true.
Proof.
  assert (likeKeys Sample.doubled) as Hkeys
    by (apply (bool_decide_unpack _); vm_compute; exact I).
  assert (2 ≤ length (filter (likeOf "p1" "u1") (likes Sample.doubled)))%nat
    as Htwo by (vm_compute; lia).
  split_and!; [done..|].
  exact (toggleLike_duplicates Sample.freshId Sample.doubled "p1" "u1" Hkeys Htwo).
Defined.

(** * More of the storage layer *)

Ltac run_db :=
  unfold evalDB, execDB, bind, query, execute, ret, where_; cbn [fst snd].

Section MoreKeys.
Context {A K : Type} `{!EqDecision K} (key : A → K).

(** A lookup by a key finds the row of that key and nothing else. *)
Lemma filter_key_singleton (l : list A) (x : A) :
  NoDup (key <$> l) → x ∈ l → filter (λ y, key y = key x) l = [x].
Proof.
  induction l as [|a l IH]; [by intros _ ?%elem_of_nil|].
  rewrite fmap_cons, NoDup_cons. intros [Ha Hl] Hx.
  destruct (decide (key a = key x)) as [Heq|Hne].
  - assert (a = x) as ->.
    { apply elem_of_cons in Hx as [->|Hx]; [done|].
      destruct Ha. rewrite Heq. by apply list_elem_of_fmap_2. }
    rewrite filter_cons_True by done. f_equal. apply filter_none.
    intros y Hy Hk. apply Ha. rewrite <- Hk. by apply list_elem_of_fmap_2.
  - rewrite filter_cons_False by done.
    apply elem_of_cons in Hx as [->|Hx]; [done|]. by apply IH.
Qed.

Lemma filter_filter_same (P Q : A → Prop) `{!∀ x, Decision (P x)}
    `{!∀ x, Decision (Q x)} (l : list A) :
  (∀ x, x ∈ l → P x → Q x) → filter P (filter Q l) = filter P l.
Proof.
  induction l as [|a l IH]; [done|]. intros Himp.
  assert (filter P (filter Q l) = filter P l) as IH'.
  { apply IH. intros x Hx. apply Himp. by right. }
  rewrite (filter_cons Q). destruct (decide (Q a)) as [Hq|Hq].
  - rewrite !(filter_cons P). by rewrite IH'.
  - rewrite IH'. rewrite filter_cons_False; [done|].
    intros Hp. apply Hq, Himp; [left|done].
Qed.

Lemma length_filter_filter (P Q : A → Prop) `{!∀ x, Decision (P x)}
    `{!∀ x, Decision (Q x)} (l : list A) :
  (length (filter P (filter Q l)) ≤ length (filter P l))%nat.
Proof.
  induction l as [|a l IH]; [done|].
  rewrite (filter_cons Q), (filter_cons P).
  destruct (decide (Q a)), (decide (P a));
    rewrite ?filter_cons_True, ?filter_cons_False by done; simpl; lia.
Qed.
End MoreKeys.

Section Likes.

Context {Profile : Type}.
Variable newId : list string → string.

Implicit Types (s : Store Profile) (postId userId : string).

Lemma getLikesCount_eq s postId :
  evalDB (getLikesCount postId) s
  = JsString (pretty (Z.of_nat
      (length (filter (λ l, like_postId l = postId) (likes s))))).
Proof.
  unfold getLikesCount. run_db. unfold countAll. cbn [head count].
  apply orElse_bigint.
Qed.

Lemma evalDB_checkUserLike s postId userId :
  evalDB (checkUserLike postId userId) s
  = bool_decide (filter (likeOf postId userId) (likes s) ≠ []).
Proof. unfold evalDB. by rewrite checkUserLike_eq. Qed.

(** X1: the views of the likes of a post agree on what they count:
    [getLikesCount] is the text of the number of rows of [getLikesByPost],
    never a number, not even for a post without likes, and [checkUserLike]
    is true exactly when one of these rows is of the user. *)
Theorem likes_views_agree s postId userId :
  evalDB (getLikesCount postId) s
  = JsString (pretty (Z.of_nat (length (evalDB (getLikesByPost postId) s))))
  ∧ (∀ n, evalDB (getLikesCount postId) s ≠ JsNumber n)
  ∧ (evalDB (checkUserLike postId userId) s = true
     ↔ ∃ l, l ∈ evalDB (getLikesByPost postId) s ∧ like_userId l = userId).
Proof.
  split_and!; [apply getLikesCount_eq|by rewrite getLikesCount_eq|].
  rewrite evalDB_checkUserLike, bool_decide_eq_true.
  unfold getLikesByPost. run_db. split.
  - intros Hne. destruct (filter (likeOf postId userId) (likes s)) as [|l rest] eqn:E;
      [done|].
    assert (l ∈ filter (likeOf postId userId) (likes s)) as Hl by (rewrite E; left).
    apply list_elem_of_filter in Hl as [[Hp Hu] Hl].
    exists l. split; [|done]. by apply list_elem_of_filter.
  - intros (l & [Hp Hl]%list_elem_of_filter & Hu) Hnil.
    apply (filter_nil_not_elem_of _ _ l Hnil); [by split|done].
Qed.

(** X2: [addLike] on a post of the store resolves and is seen: afterwards
    [checkUserLike] of the pair is true, [getLikesByPost] of the post
    returns the rows it returned and the new row, and the likes of the other
    posts are those they were.  On what is no post the store refuses the
    insert: the call rejects and the store is as it was. *)
Theorem addLike_is_seen s postId userId :
  (postId ∈ post_id <$> posts s →
   let run := addLike newId postId userId s in
   run.1 = Resolved tt
   ∧ evalDB (checkUserLike postId userId) run.2 = true
   ∧ evalDB (getLikesByPost postId) run.2
     ≡ₚ evalDB (getLikesByPost postId) s
        ++ [mkLike (newId (like_id <$> likes s)) postId userId]
   ∧ ∀ postId', postId' ≠ postId →
       evalDB (getLikesByPost postId') run.2 ≡ₚ evalDB (getLikesByPost postId') s)
  ∧ (postId ∉ post_id <$> posts s →
     addLike newId postId userId s = (Rejected, s)).
Proof.
  split; [|apply insertLike_no_post].
  intros Hpost run. subst run. unfold addLike.
  rewrite (insertLike_post _ _ _ _ Hpost). cbn [fst snd].
  rewrite evalDB_checkUserLike. unfold getLikesByPost. run_db.
  rewrite likeOf_withLike, likes_withLike, filter_app.
  rewrite (filter_cons_True (λ l, like_postId l = postId)) by done.
  split_and!; [done| |done|].
  - apply bool_decide_eq_true. by destruct (filter _ (likes s)).
  - intros postId' Hne. rewrite filter_app, filter_cons_False by (simpl; congruence).
    by rewrite app_nil_r.
Qed.

End Likes.

Section Toggles.

Context {Profile : Type}.
Variable newId : list string → string.

Implicit Types (s : Store Profile) (postId userId : string).

(** The like that a lookup fetched is a like of the pair in the table. *)
Lemma fetched_like s postId userId (l : Like) (rest : list Like) :
  filter (likeOf postId userId) (likes s) = l :: rest →
  l ∈ likes s ∧ like_postId l = postId ∧ like_userId l = userId.
Proof.
  intros E.
  assert (l ∈ filter (likeOf postId userId) (likes s)) as Hl by (rewrite E; left).
  apply list_elem_of_filter in Hl as [[Hp Hu] Hl]. done.
Qed.

(** With distinct keys, the delete of a fetched like leaves the likes of
    every other pair and of every other post in place. *)
Lemma deleteLike_others s (l : Like) (P : Like → Prop) `{!∀ x, Decision (P x)} :
  likeKeys s → l ∈ likes s → ¬ P l →
  filter P (likes (deleteLike (like_id l) s)) = filter P (likes s).
Proof.
  intros Hkeys Hl HP. rewrite likes_deleteLike. apply filter_filter_same.
  intros x Hx HPx Heq. apply HP.
  by rewrite <- (NoDup_key_eq like_id (likes s) x l Hkeys Hx Hl Heq).
Qed.

(** What a call does: it inserts and resolves, it is refused and rejects,
    or it deletes the like that it fetched and resolves. *)
Lemma toggleLike_cases s postId userId :
  (filter (likeOf postId userId) (likes s) = []
   ∧ postId ∈ post_id <$> posts s
   ∧ toggleLike newId postId userId s
     = (Resolved (mkToggleResult true), withLike newId postId userId s))
  ∨ (filter (likeOf postId userId) (likes s) = []
     ∧ (postId ∉ post_id <$> posts s)
     ∧ toggleLike newId postId userId s = (Rejected, s))
  ∨ (∃ l rest,
       filter (likeOf postId userId) (likes s) = l :: rest
       ∧ toggleLike newId postId userId s
         = (Resolved (mkToggleResult false), deleteLike (like_id l) s)).
Proof.
  destruct (filter (likeOf postId userId) (likes s)) as [|l rest] eqn:E.
  - destruct (decide (postId ∈ post_id <$> posts s)) as [Hpost|Hpost].
    + left. split_and!; [done..|]. by apply toggleLike_inserts.
    + right. left. split_and!; [done..|]. by apply toggleLike_refused.
  - right. right. exists l, rest. split; [done|]. by eapply toggleLike_deletes.
Qed.

(** The likes that a condition selects, after a like that the condition
    does not select was put into the table. *)
Lemma withLike_others s postId userId (P : Like → Prop) `{!∀ x, Decision (P x)} :
  ¬ P (mkLike (newId (like_id <$> likes s)) postId userId) →
  filter P (likes (withLike newId postId userId s)) = filter P (likes s).
Proof.
  intros HP. rewrite likes_withLike, filter_app, filter_cons_False by done.
  by rewrite app_nil_r.
Qed.

(** X3: with distinct keys of [likes], a call of [toggleLike] moves by one
    the number whose text [getLikesCount] of the post returns: up when it
    resolves with [liked = true], down when it resolves with
    [liked = false], and not at all when it rejects. *)
Theorem toggleLike_count s postId userId :
  likeKeys s →
  let r := evalDB (toggleLike newId postId userId) s in
  let s' := execDB (toggleLike newId postId userId) s in
  evalDB (getLikesCount postId) s'
  = JsString (pretty
      (Z.of_nat (length (evalDB (getLikesByPost postId) s))
       + match r with
         | Resolved t => if liked t then 1 else -1
         | Rejected => 0
         end)).
Proof.
  intros Hkeys r s'. subst r s'. rewrite getLikesCount_eq.
  unfold getLikesByPost. run_db. do 2 f_equal.
  destruct (toggleLike_cases s postId userId)
    as [(E & Hpost & ->)|[(E & Hpost & ->)|(l & rest & E & ->)]]; cbn [fst snd liked].
  - rewrite likes_withLike, filter_app, length_app.
    rewrite filter_cons_True by done. simpl. lia.
  - lia.
  - destruct (fetched_like _ _ _ _ _ E) as (Hl & Hp & _).
    rewrite likes_deleteLike.
    rewrite (delete_by_key like_id (likes s) l Hkeys Hl) at 2.
    rewrite filter_cons_True by done. simpl. lia.
Qed.

(** X4: with distinct keys of [likes], a call of [toggleLike] touches the
    likes of its pair only: [checkUserLike] of every other pair and
    [getLikesByPost] of every other post are as before, and so are the
    users, the posts and the comments. *)
Theorem toggleLike_frame s postId userId :
  likeKeys s →
  let s' := execDB (toggleLike newId postId userId) s in
  (∀ postId' userId', (postId', userId') ≠ (postId, userId) →
     evalDB (checkUserLike postId' userId') s'
     = evalDB (checkUserLike postId' userId') s)
  ∧ (∀ postId', postId' ≠ postId →
       evalDB (getLikesByPost postId') s' = evalDB (getLikesByPost postId') s)
  ∧ users s' = users s ∧ posts s' = posts s ∧ comments s' = comments s.
Proof.
  intros Hkeys s'. subst s'. unfold execDB.
  destruct (toggleLike_cases s postId userId)
    as [(E & Hpost & ->)|[(E & Hpost & ->)|(l & rest & E & ->)]]; cbn [fst snd].
  - split_and!; [| |done..].
    + intros postId' userId' Hne. rewrite !evalDB_checkUserLike.
      rewrite withLike_others; [done|].
      intros [Hp Hu]. simpl in Hp, Hu. congruence.
    + intros postId' Hne. unfold getLikesByPost. run_db.
      rewrite withLike_others; [done|]. simpl. congruence.
  - done.
  - destruct (fetched_like _ _ _ _ _ E) as (Hl & Hp & Hu).
    split_and!; [| |done..].
    + intros postId' userId' Hne. rewrite !evalDB_checkUserLike.
      rewrite deleteLike_others; [done..|]. intros [Hp' Hu']. congruence.
    + intros postId' Hne. unfold getLikesByPost. run_db.
      rewrite deleteLike_others; [done..|]. congruence.
Qed.

(** X5: [toggleLike] keeps the invariants of [likes]: every pair of a post
    and a user that had at most one like has at most one afterwards, be it
    the pair of the call or another, and with a store that hands out keys
    not in use the keys stay distinct. *)
Theorem toggleLike_keeps_invariants s postId userId :
  let s' := execDB (toggleLike newId postId userId) s in
  (∀ postId' userId',
     atMostOneLike postId' userId' s → atMostOneLike postId' userId' s')
  ∧ ((∀ used, newId used ∉ used) → likeKeys s → likeKeys s').
Proof.
  intros s'. subst s'. split; [|by apply toggleLike_likeKeys].
  intros postId' userId' Hone.
  destruct (decide ((postId', userId') = (postId, userId))) as [[= -> ->]|Hne].
  { by apply toggleLike_atMostOne. }
  unfold atMostOneLike, execDB in *.
  destruct (toggleLike_cases s postId userId)
    as [(E & Hpost & ->)|[(E & Hpost & ->)|(l & rest & E & ->)]]; cbn [fst snd].
  - rewrite withLike_others; [done|].
    intros [Hp Hu]. simpl in Hp, Hu. congruence.
  - done.
  - rewrite likes_deleteLike.
    etrans; [apply length_filter_filter|done].
Qed.

(** X6: a like and its withdrawal leave no trace: from a store where the
    pair has no like, and whose next key is not in use, two calls of
    [toggleLike] in sequence give back the store as it was. *)
Theorem toggleLike_twice_restores s postId userId :
  filter (likeOf postId userId) (likes s) = [] →
  newId (like_id <$> likes s) ∉ like_id <$> likes s →
  execDB (toggleTimes newId 2 postId userId) s = s.
Proof.
  intros Hnone Hfresh. rewrite !toggleTimes_S_exec.
  destruct (decide (postId ∈ post_id <$> posts s)) as [Hpost|Hpost].
  - unfold execDB at 3.
    rewrite (toggleLike_inserts _ _ _ _ Hnone Hpost). cbn [fst snd].
    pose proof (likeOf_withLike newId s postId userId) as E. rewrite Hnone in E.
    unfold execDB at 2. rewrite (toggleLike_deletes _ _ _ _ _ _ E). cbn [fst snd].
    unfold execDB, toggleTimes, ret. cbn [fst snd like_id].
    unfold deleteLike. rewrite likes_withLike, filter_app.
    rewrite filter_cons_False by (intros H; by apply H).
    rewrite app_nil_r, filter_all; [by destruct s|].
    intros x Hx Heq. apply Hfresh. rewrite <- Heq. by apply list_elem_of_fmap_2.
  - unfold execDB at 3.
    rewrite (toggleLike_refused _ _ _ _ Hnone Hpost). cbn [fst snd].
    unfold execDB at 2.
    by rewrite (toggleLike_refused _ _ _ _ Hnone Hpost).
Qed.

End Toggles.

Section Reads.

Context {Profile : Type}.
Variable newId : list string → string.

Implicit Types (s : Store Profile) (postId userId : string).

Lemma getUser_found s (u : User Profile) :
  userKeys s → u ∈ users s → getUser (user_id u) s = (Some u, s).
Proof.
  intros Hkeys Hu. unfold getUser. run_db.
  by rewrite (filter_key_singleton user_id).
Qed.

Lemma getUserByUsername_found s (u : User Profile) :
  usernameKeys s → u ∈ users s →
  getUserByUsername (user_username u) s = (Some u, s).
Proof.
  intros Hkeys Hu. unfold getUserByUsername. run_db.
  by rewrite (filter_key_singleton user_username).
Qed.

Lemma getPost_found s (p : Post) :
  postKeys s → p ∈ posts s → getPost (post_id p) s = (Some p, s).
Proof.
  intros Hkeys Hp. unfold getPost. run_db.
  by rewrite (filter_key_singleton post_id).
Qed.

(** X7: with distinct keys, a point lookup on the key of a row of the table
    returns that row: [getUser] on its [id], [getUserByUsername] on its
    [username], [getPost] on its [id]; the store is as before. *)
Theorem lookups_found s :
  userKeys s → usernameKeys s → postKeys s →
  (∀ u, u ∈ users s →
     getUser (user_id u) s = (Some u, s)
     ∧ getUserByUsername (user_username u) s = (Some u, s))
  ∧ (∀ p, p ∈ posts s → getPost (post_id p) s = (Some p, s)).
Proof.
  intros Hids Hnames Hposts. split; [intros u Hu; split|intros p Hp].
  - by apply getUser_found.
  - by apply getUserByUsername_found.
  - by apply getPost_found.
Qed.

(** The groups of the join are those of the post keys, one row each. *)
Lemma selected_ids s (vs : list string) :
  (∀ v, v ∈ vs → v ∈ (λ r, post_id r.1.1) <$> joinedRows s) →
  (λ r, post_id (pc_post r)) <$>
    omap selectCounts
      ((λ v, filter (λ r, post_id r.1.1 = v) (joinedRows s)) <$> vs)
  = vs.
Proof.
  induction vs as [|v vs IH]; [done|]. intros Hvs.
  rewrite fmap_cons. cbn [omap list_omap].
  assert (v ∈ (λ r, post_id r.1.1) <$> joinedRows s) as Hv by (apply Hvs; left).
  apply list_elem_of_fmap in Hv as (r0 & -> & Hr0).
  assert (r0 ∈ filter (λ r, post_id r.1.1 = post_id r0.1.1) (joinedRows s)) as Hin
    by (by apply list_elem_of_filter).
  destruct (filter (λ r, post_id r.1.1 = post_id r0.1.1) (joinedRows s))
    as [|[[p ol] oc] g] eqn:E; [by apply elem_of_nil in Hin|].
  assert (post_id p = post_id r0.1.1) as Hp.
  { assert ((p, ol, oc) ∈ filter (λ r, post_id r.1.1 = post_id r0.1.1) (joinedRows s))
      as Hhd by (rewrite E; left).
    by apply list_elem_of_filter in Hhd as [? _]. }
  cbn [selectCounts]. rewrite fmap_cons. cbn [pc_post post_id]. rewrite Hp.
  f_equal. apply IH. intros v' Hv'. apply Hvs. by right.
Qed.

Lemma getPosts_row_post s (r : PostWithCounts) :
  r ∈ evalDB getPosts s → pc_post r ∈ posts s.
Proof.
  intros (v & Hv & Hsel)%elem_of_getPosts.
  destruct (filter (λ r, post_id r.1.1 = v) (joinedRows s))
    as [|[[p ol] oc] g] eqn:E; [done|].
  assert ((p, ol, oc) ∈ filter (λ r, post_id r.1.1 = v) (joinedRows s)) as Hin
    by (rewrite E; left).
  apply list_elem_of_filter in Hin as [_ Hin].
  apply elem_of_joinedRows in Hin as [Hp _].
  injection Hsel as <-. cbn [pc_post]. by rewrite mkPost_eta.
Qed.

(** X8: the joins of [getPosts] do not multiply the posts: with distinct
    keys of [posts], the result has one row for each post of the store, and
    the posts of its rows are those that [getPostsByRoom] returns. *)
Theorem getPosts_one_row_per_post s (roomId : string) :
  postKeys s →
  pc_post <$> evalDB getPosts s ≡ₚ posts s
  ∧ pc_post <$> evalDB getPosts s ≡ₚ evalDB (getPostsByRoom roomId) s
  ∧ length (evalDB getPosts s) = length (posts s).
Proof.
  intros Hkeys.
  assert (pc_post <$> evalDB getPosts s ≡ₚ posts s) as Hperm.
  { apply NoDup_Permutation.
    - apply (NoDup_fmap_1 post_id). rewrite <- list_fmap_compose.
      unfold getPosts. run_db. rewrite orderByDesc_Permutation.
      unfold groupBy, compose. rewrite selected_ids.
      + apply NoDup_remove_dups.
      + intros v. by rewrite elem_of_remove_dups.
    - by apply (NoDup_fmap_1 post_id).
    - intros p. split.
      + intros (r & -> & Hr)%list_elem_of_fmap. by apply getPosts_row_post.
      + intros Hp. destruct (getPosts_total s p Hkeys Hp) as (r & Hr & <-).
        by apply list_elem_of_fmap_2. }
  split_and!; [done| |].
  - rewrite Hperm. unfold getPostsByRoom. run_db.
    by rewrite orderByDesc_Permutation.
  - by rewrite <- Hperm, length_fmap.
Qed.

(** With distinct keys of [posts], the rows of [getPosts] are the posts of
    the store, each with the numbers of distinct keys among its likes and
    among its comments. *)
Lemma elem_of_getPosts_keys s (r : PostWithCounts) :
  postKeys s →
  r ∈ evalDB getPosts s
  ↔ pc_post r ∈ posts s
    ∧ likeCount r
      = Z.of_nat (length (remove_dups
          (like_id <$> filter (λ l, like_postId l = post_id (pc_post r)) (likes s))))
    ∧ commentCount r
      = Z.of_nat (length (remove_dups
          (comment_id <$>
             filter (λ c, comment_postId c = post_id (pc_post r)) (comments s)))).
Proof.
  intros Hkeys. split.
  - intros Hr. split; [by apply getPosts_row_post|by apply getPosts_row_counts].
  - intros (Hp & Hlikes & Hcomments).
    destruct (getPosts_total s _ Hkeys Hp) as (r0 & Hr0 & Hpost).
    destruct (getPosts_row_counts s r0 Hr0) as [Hlikes0 Hcomments0].
    rewrite Hpost, <- Hlikes in Hlikes0. rewrite Hpost, <- Hcomments in Hcomments0.
    destruct r, r0. cbn in *. by subst.
Qed.

Lemma runSchedule_cons (i : nat) (schedule : list nat) (calls : list Call) s :
  runSchedule newId (i :: schedule) calls s
  = runSchedule newId schedule (stepAt newId i calls s).1 (stepAt newId i calls s).2.
Proof. cbn [runSchedule]. unfold bind. by destruct (stepAt newId i calls s). Qed.

Lemma stepCall_Issued s postId userId :
  stepCall newId (Issued postId userId) s
  = (Fetched postId userId (limit 1 (filter (likeOf postId userId) (likes s))), s).
Proof. done. Qed.

Lemma stepCall_Fetched s postId userId (existingLike : list Like) :
  stepCall newId (Fetched postId userId existingLike) s
  = match existingLike with
    | l :: _ => (Returned (mkToggleResult false), deleteLike (like_id l) s)
    | [] =>
        if decide (postId ∈ post_id <$> posts s)
        then (Returned (mkToggleResult true), withLike newId postId userId s)
        else (Thrown, s)
    end.
Proof.
  destruct existingLike; [|done].
  unfold stepCall, attempt, insertLike. run_db. by case_decide.
Qed.

(** X9: two calls of [toggleLike] for the same pair on a post of the store,
    both lookups served before both writes, do the same thing twice: from at
    most one like of the pair, both return the opposite of what
    [checkUserLike] was; when there was no like the pair now has two, and
    when there was one it has none. *)
Theorem toggleLike_race s postId userId :
  postId ∈ post_id <$> posts s →
  atMostOneLike postId userId s →
  let had := evalDB (checkUserLike postId userId) s in
  let run :=
    runSchedule newId [0; 1; 0; 1]%nat
      [Issued postId userId; Issued postId userId] s in
  run.1 = [Returned (mkToggleResult (negb had)); Returned (mkToggleResult (negb had))]
  ∧ length (filter (likeOf postId userId) (likes run.2))
    = if had then 0%nat else 2%nat.
Proof.
  intros Hpost Hone had run. subst had run. rewrite evalDB_checkUserLike.
  unfold atMostOneLike in Hone.
  rewrite runSchedule_cons, (stepAt_Some _ 0 _ (Issued postId userId)) by done.
  rewrite stepCall_Issued. cbn [fst snd].
  rewrite runSchedule_cons, (stepAt_Some _ 1 _ (Issued postId userId)) by done.
  rewrite stepCall_Issued. cbn [fst snd]. rewrite limit_1.
  destruct (filter (likeOf postId userId) (likes s)) as [|l [|l' rest]] eqn:E;
    [| |simpl in Hone; lia].
  - rewrite runSchedule_cons,
      (stepAt_Some _ 0 _ (Fetched postId userId [])) by done.
    rewrite stepCall_Fetched, decide_True by done. cbn [fst snd].
    rewrite runSchedule_cons,
      (stepAt_Some _ 1 _ (Fetched postId userId [])) by done.
    rewrite stepCall_Fetched, decide_True by done.
    cbn [fst snd runSchedule]. unfold ret. cbn [fst snd].
    split; [done|]. by rewrite !likeOf_withLike, E.
  - rewrite runSchedule_cons,
      (stepAt_Some _ 0 _ (Fetched postId userId [l])) by done.
    rewrite stepCall_Fetched. cbn [fst snd].
    rewrite runSchedule_cons,
      (stepAt_Some _ 1 _ (Fetched postId userId [l])) by done.
    rewrite stepCall_Fetched. cbn [fst snd runSchedule]. unfold ret. cbn [fst snd].
    split; [done|]. rewrite likes_deleteLike.
    apply Nat.le_0_r. etrans; [apply length_filter_filter|].
    by rewrite (likeOf_deleteLike_only _ _ _ _ E).
Qed.

End Reads.

Section Orders.
Context {A : Type} (k : A → Z).

(** In rows by ascending key, a row whose key is above all others is last. *)
Lemma ascending_last (l : list A) (x : A) :
  StronglySorted (ascending k) l → x ∈ l →
  (∀ y, y ∈ l → y = x ∨ k y < k x) → last l = Some x.
Proof.
  intros Hl. induction Hl as [|a l Hl IH Ha]; intros Hx Hmax.
  { by apply elem_of_nil in Hx. }
  destruct l as [|b l].
  { apply list_elem_of_singleton in Hx as ->. done. }
  rewrite last_cons_cons. apply IH.
  - apply elem_of_cons in Hx as [->|Hx]; [|done].
    destruct (Hmax b) as [->|Hlt]; [right; left|left|].
    apply Forall_cons_1 in Ha as [Hab _]. unfold ascending in Hab. lia.
  - intros y Hy. apply Hmax. by right.
Qed.

(** In rows by descending key, a row whose key is above all others is first. *)
Lemma descending_head (l : list A) (x : A) :
  StronglySorted (descending k) l → x ∈ l →
  (∀ y, y ∈ l → y = x ∨ k y < k x) → head l = Some x.
Proof.
  intros Hl Hx Hmax. destruct Hl as [|a l Hl Ha]; [by apply elem_of_nil in Hx|].
  simpl. f_equal. destruct (Hmax a) as [->|Hlt]; [left|done|].
  apply elem_of_cons in Hx as [->|Hx]; [done|].
  eapply Forall_forall in Ha; [|exact Hx]. unfold descending in Ha. lia.
Qed.
End Orders.

Section Comments.

Context {Profile : Type}.
Variable newId : list string → string.
Variable now : Store Profile → Z.

Implicit Types (s : Store Profile) (postId : string).

Lemma getCommentsByPost_eq s postId :
  evalDB (getCommentsByPost postId) s
  = orderBy comment_createdAt (filter (λ c, comment_postId c = postId) (comments s)).
Proof. done. Qed.

Lemma getComments_eq s postId :
  evalDB (getComments postId) s
  = comment_content <$> evalDB (getCommentsByPost postId) s.
Proof.
  unfold getComments, getCommentsByPost. run_db. by rewrite <- list_fmap_compose.
Qed.

(** The comments of a post after a row was put at the end of [comments]. *)
Lemma comments_of_post_snoc (cs : list Comment) (row : Comment) postId :
  filter (λ c, comment_postId c = postId) (cs ++ [row])
  = filter (λ c, comment_postId c = postId) cs
    ++ (if decide (comment_postId row = postId) then [row] else []).
Proof.
  rewrite filter_app. by f_equal.
Qed.

(** The insert of [addComment], on a post and on what is no post. *)
Lemma addComment_post s postId (text : string) :
  postId ∈ post_id <$> posts s →
  addComment newId now postId text s
  = (Resolved tt,
     withComment
       (mkComment (newId (comment_id <$> comments s)) postId text "زائر"
          "https://via.placeholder.com/60" (now s)) s).
Proof. intros Hpost. unfold addComment, insertComment. by rewrite decide_True. Qed.

Lemma addComment_no_post s postId (text : string) :
  postId ∉ post_id <$> posts s →
  addComment newId now postId text s = (Rejected, s).
Proof. intros Hpost. unfold addComment, insertComment. by rewrite decide_False. Qed.

(** X10: [addComment(postId, text)] on a post of the store resolves and adds
    one comment to the post, with the text of the caller and the placeholder
    author and avatar: afterwards [getCommentsByPost(postId)] has the rows
    it had and this row, [getComments(postId)] the texts it had and [text];
    the comments of the other posts, the users, the posts and the likes are
    those they were.  On what is no post the store refuses the insert: the
    call rejects and the store is as it was. *)
Theorem addComment_is_seen s postId (text : string) :
  (postId ∈ post_id <$> posts s →
   let run := addComment newId now postId text s in
   let row :=
     mkComment (newId (comment_id <$> comments s)) postId text "زائر"
       "https://via.placeholder.com/60" (now s) in
   run.1 = Resolved tt
   ∧ evalDB (getCommentsByPost postId) run.2
     ≡ₚ evalDB (getCommentsByPost postId) s ++ [row]
   ∧ evalDB (getComments postId) run.2 ≡ₚ evalDB (getComments postId) s ++ [text]
   ∧ (∀ postId', postId' ≠ postId →
        evalDB (getCommentsByPost postId') run.2
        ≡ₚ evalDB (getCommentsByPost postId') s
        ∧ evalDB (getComments postId') run.2 ≡ₚ evalDB (getComments postId') s)
   ∧ users run.2 = users s ∧ posts run.2 = posts s ∧ likes run.2 = likes s)
  ∧ (postId ∉ post_id <$> posts s →
     addComment newId now postId text s = (Rejected, s)).
Proof.
  split; [|apply addComment_no_post].
  intros Hpost run row. subst run. rewrite (addComment_post _ _ _ Hpost).
  cbn [fst snd]. fold row.
  assert (comments (withComment row s) = comments s ++ [row]) as Hcomments by done.
  assert (evalDB (getCommentsByPost postId) (withComment row s)
          ≡ₚ evalDB (getCommentsByPost postId) s ++ [row]) as Hrows.
  { rewrite !getCommentsByPost_eq, Hcomments, comments_of_post_snoc.
    rewrite decide_True by done. by rewrite !orderBy_Permutation. }
  split_and!; [done|done| | |done..].
  - rewrite !getComments_eq, Hrows. by rewrite fmap_app.
  - intros postId' Hne.
    assert (evalDB (getCommentsByPost postId') (withComment row s)
            = evalDB (getCommentsByPost postId') s) as Hsame.
    { rewrite !getCommentsByPost_eq, Hcomments, comments_of_post_snoc.
      rewrite decide_False by (simpl; congruence). by rewrite app_nil_r. }
    split; [by rewrite Hsame|]. by rewrite !getComments_eq, Hsame.
Qed.

(** X11: a comment added to a post of the store when the clock of the store
    is past the comments of the post comes last: [text] is the last of
    [getComments(postId)] after [addComment(postId, text)]. *)
Theorem addComment_comes_last s postId (text : string) :
  postId ∈ post_id <$> posts s →
  (∀ c, c ∈ comments s → comment_postId c = postId →
        comment_createdAt c < now s) →
  let s' := execDB (addComment newId now postId text) s in
  last (evalDB (getComments postId) s') = Some text.
Proof.
  intros Hpost Hlater s'. subst s'. unfold execDB.
  rewrite (addComment_post _ _ _ Hpost). cbn [snd].
  set (row := mkComment (newId (comment_id <$> comments s)) postId text "زائر"
                "https://via.placeholder.com/60" (now s)).
  assert (comments (withComment row s) = comments s ++ [row]) as Hcomments by done.
  rewrite getComments_eq, fmap_last.
  rewrite (ascending_last comment_createdAt _ row); [done|..].
  - apply orderBy_sorted.
  - rewrite getCommentsByPost_eq, orderBy_Permutation, Hcomments.
    rewrite comments_of_post_snoc, decide_True by done.
    apply elem_of_app. right. left.
  - intros c. rewrite getCommentsByPost_eq, orderBy_Permutation, Hcomments.
    rewrite comments_of_post_snoc, decide_True by done.
    intros [[Hp Hc]%list_elem_of_filter|Hc%list_elem_of_singleton]%elem_of_app;
      [right|by left].
    by apply Hlater.
Qed.

(** X12: the feed follows [addComment]: with distinct keys of [posts] and of
    [comments] and a new key that is not in use, every row of [getPosts()]
    is a row of [getPosts()] after [addComment(postId, text)], with its
    [commentCount] raised by one when it is the row of the post [postId] and
    unchanged otherwise. *)
Theorem addComment_feed s postId (text : string) (r : PostWithCounts) :
  postKeys s → commentKeys s →
  newId (comment_id <$> comments s) ∉ comment_id <$> comments s →
  r ∈ evalDB getPosts s →
  let s' := execDB (addComment newId now postId text) s in
  mkPostWithCounts (pc_post r) (likeCount r)
    (if decide (post_id (pc_post r) = postId)
     then commentCount r + 1 else commentCount r)
  ∈ evalDB getPosts s'.
Proof.
  intros Hposts Hkeys Hfresh Hr s'. subst s'. unfold execDB.
  destruct (decide (postId ∈ post_id <$> posts s)) as [Hpost|Hpost]; cycle 1.
  { rewrite (addComment_no_post _ _ _ Hpost). cbn [snd].
    rewrite decide_False; [by destruct r|].
    intros <-. apply Hpost, list_elem_of_fmap_2. by apply getPosts_row_post. }
  rewrite (addComment_post _ _ _ Hpost). cbn [snd].
  set (row := mkComment (newId (comment_id <$> comments s)) postId text "زائر"
                "https://via.placeholder.com/60" (now s)).
  set (s' := withComment row s).
  assert (comments s' = comments s ++ [row]) as Hcomments by done.
  assert (commentKeys s') as Hkeys'.
  { unfold commentKeys. rewrite Hcomments, fmap_app. apply NoDup_app.
    split_and!; [done| |apply NoDup_singleton].
    intros k Hk [->|[]%elem_of_nil]%elem_of_cons. done. }
  apply (elem_of_getPosts_keys s r Hposts) in Hr as (Hp & Hlc & Hcc).
  apply (elem_of_getPosts_keys s'); [done|]. cbn [pc_post likeCount commentCount].
  split_and!; [done..|].
  rewrite (length_remove_dups_keys comment_id _
             (filter (λ c, comment_postId c = post_id (pc_post r)) (comments s')));
    [|by apply NoDup_key_filter|done].
  rewrite (length_remove_dups_keys comment_id _
             (filter (λ c, comment_postId c = post_id (pc_post r)) (comments s)))
    in Hcc; [|by apply NoDup_key_filter|done].
  rewrite Hcc, Hcomments, comments_of_post_snoc. cbn [comment_postId row].
  destruct (decide (post_id (pc_post r) = postId)) as [Heq|Hne].
  - rewrite decide_True by done. rewrite length_app. simpl. lia.
  - rewrite decide_False by done. by rewrite app_nil_r.
Qed.

End Comments.

Section Creates.

Context {Profile InsertUser InsertPost InsertComment : Type}.
Variable newId : list string → string.
Variable userRow : InsertUser → Store Profile → User Profile.
Variable postRow : InsertPost → Store Profile → Post.
Variable commentRow : InsertComment → Store Profile → Comment.

Implicit Types (s : Store Profile).

Lemma NoDup_key_snoc {A K} (key : A → K) (l : list A) (x : A) :
  NoDup (key <$> l) → key x ∉ key <$> l → NoDup (key <$> (l ++ [x])).
Proof.
  intros Hl Hx. rewrite fmap_app. apply NoDup_app.
  split_and!; [done| |apply NoDup_singleton].
  intros k Hk [->|[]%elem_of_nil]%elem_of_cons. done.
Qed.

Lemma head_fmap {A B} (f : A → B) (l : list A) : head (f <$> l) = f <$> head l.
Proof. by destruct l. Qed.

(** X13: a user that the store accepts can be looked up: when no row of
    [users] has the [id] or the [username] of the row that the store
    persists, [createUser] returns this row, [getUser] on its [id] and
    [getUserByUsername] on its [username] return it, the users that were
    there are still found by both, and the keys are still distinct. *)
Theorem createUser_round_trip s (insertUser : InsertUser) :
  let row := userRow insertUser s in
  let s' := execDB (createUser userRow insertUser) s in
  userKeys s → usernameKeys s →
  user_id row ∉ user_id <$> users s →
  user_username row ∉ user_username <$> users s →
  evalDB (createUser userRow insertUser) s = Some row
  ∧ getUser (user_id row) s' = (Some row, s')
  ∧ getUserByUsername (user_username row) s' = (Some row, s')
  ∧ (∀ u, u ∈ users s →
       getUser (user_id u) s' = (Some u, s')
       ∧ getUserByUsername (user_username u) s' = (Some u, s'))
  ∧ userKeys s' ∧ usernameKeys s'.
Proof.
  intros row s' Hids Hnames Hid Hname.
  assert (users s' = users s ++ [row]) as Husers by done.
  assert (userKeys s') as Hids'
    by (unfold userKeys; rewrite Husers; by apply NoDup_key_snoc).
  assert (usernameKeys s') as Hnames'
    by (unfold usernameKeys; rewrite Husers; by apply NoDup_key_snoc).
  assert (row ∈ users s') as Hrow
    by (rewrite Husers; apply elem_of_app; right; left).
  split_and!; [done| | | |done..].
  - by apply getUser_found.
  - by apply getUserByUsername_found.
  - intros u Hu.
    assert (u ∈ users s') as Hu' by (rewrite Husers; apply elem_of_app; by left).
    split; [by apply getUser_found|by apply getUserByUsername_found].
Qed.

(** X14: a post that the store accepts is in the feed at once: when no post
    has the [id] of the row that the store persists, and the likes and the
    comments are on posts of the store, [createPost] returns this row,
    [getPost] on its [id] returns it, [getPosts()] has it with
    [likeCount = 0] and [commentCount = 0], and every row that [getPosts()]
    had is still there. *)
Theorem createPost_round_trip s (insertPost : InsertPost) :
  let row := postRow insertPost s in
  let s' := execDB (createPost postRow insertPost) s in
  postKeys s → likesOnPosts s → commentsOnPosts s →
  post_id row ∉ post_id <$> posts s →
  evalDB (createPost postRow insertPost) s = Some row
  ∧ getPost (post_id row) s' = (Some row, s')
  ∧ mkPostWithCounts row 0 0 ∈ evalDB getPosts s'
  ∧ (∀ r, r ∈ evalDB getPosts s → r ∈ evalDB getPosts s')
  ∧ postKeys s'.
Proof.
  intros row s' Hkeys Hlikes Hcomments Hid.
  assert (posts s' = posts s ++ [row]) as Hposts by done.
  assert (likes s' = likes s) as Hl by done.
  assert (comments s' = comments s) as Hc by done.
  assert (postKeys s') as Hkeys'
    by (unfold postKeys; rewrite Hposts; by apply NoDup_key_snoc).
  assert (row ∈ posts s') as Hrow
    by (rewrite Hposts; apply elem_of_app; right; left).
  split_and!; [done| | | |done].
  - by apply getPost_found.
  - apply (elem_of_getPosts_keys s'); [done|]. cbn [pc_post likeCount commentCount].
    rewrite Hl, Hc. split_and!; [done| |].
    + rewrite filter_none; [done|]. intros l Hin Heq. apply Hid.
      rewrite <- Heq. by apply Hlikes.
    + rewrite filter_none; [done|]. intros c Hin Heq. apply Hid.
      rewrite <- Heq. by apply Hcomments.
  - intros r Hr. apply (elem_of_getPosts_keys s r Hkeys) in Hr as (Hp & Hlc & Hcc).
    apply (elem_of_getPosts_keys s'); [done|]. rewrite Hl, Hc.
    split_and!; [|done..]. rewrite Hposts. apply elem_of_app. by left.
Qed.

(** X15: a post created later than every post of the store is on top: when
    the [createdAt] of the row that the store persists is above those of
    the posts, and no post has its [id], this row is the first of
    [getPostsByRoom(roomId)] and the post of the first row of [getPosts()]. *)
Theorem createPost_on_top s (insertPost : InsertPost) (roomId : string) :
  let row := postRow insertPost s in
  let s' := execDB (createPost postRow insertPost) s in
  postKeys s →
  post_id row ∉ post_id <$> posts s →
  (∀ p, p ∈ posts s → post_createdAt p < post_createdAt row) →
  head (evalDB (getPostsByRoom roomId) s') = Some row
  ∧ pc_post <$> head (evalDB getPosts s') = Some row.
Proof.
  intros row s' Hkeys Hid Hlater.
  assert (posts s' = posts s ++ [row]) as Hposts by done.
  assert (postKeys s') as Hkeys'
    by (unfold postKeys; rewrite Hposts; by apply NoDup_key_snoc).
  assert (row ∈ posts s') as Hrow
    by (rewrite Hposts; apply elem_of_app; right; left).
  assert (∀ p, p ∈ posts s' → p = row ∨ post_createdAt p < post_createdAt row)
    as Hmax.
  { intros p. rewrite Hposts.
    intros [Hp|Hp%list_elem_of_singleton]%elem_of_app; [right|by left].
    by apply Hlater. }
  split.
  - apply (descending_head post_createdAt); [apply orderByDesc_sorted|..].
    + unfold getPostsByRoom. run_db. by rewrite orderByDesc_Permutation.
    + intros p. unfold getPostsByRoom. run_db.
      rewrite orderByDesc_Permutation. apply Hmax.
  - rewrite <- head_fmap.
    apply (descending_head post_createdAt).
    + apply (StronglySorted_fmap _
               (descending (λ r, post_createdAt (pc_post r)))); [done|].
      apply orderByDesc_sorted.
    + destruct (getPosts_total s' row Hkeys' Hrow) as (r & Hr & <-).
      by apply list_elem_of_fmap_2.
    + intros p (r & -> & Hr)%list_elem_of_fmap.
      by apply Hmax, getPosts_row_post.
Qed.

(** X16: [createComment] of a comment on a post of the store resolves with
    the row that the store persists, and this row is then among the
    comments of its post: [getCommentsByPost] of its post has the rows it
    had and this row, and the comments of the other posts, the users, the
    posts and the likes are those they were.  A comment on what is no post
    the store refuses: the call rejects and the store is as it was. *)
Theorem createComment_is_seen s (insertComment : InsertComment) :
  let row := commentRow insertComment s in
  let run := createComment commentRow insertComment s in
  (comment_postId row ∈ post_id <$> posts s →
   run.1 = Resolved (Some row)
   ∧ evalDB (getCommentsByPost (comment_postId row)) run.2
     ≡ₚ evalDB (getCommentsByPost (comment_postId row)) s ++ [row]
   ∧ (∀ postId, postId ≠ comment_postId row →
        evalDB (getCommentsByPost postId) run.2
        ≡ₚ evalDB (getCommentsByPost postId) s)
   ∧ users run.2 = users s ∧ posts run.2 = posts s ∧ likes run.2 = likes s)
  ∧ (comment_postId row ∉ post_id <$> posts s → run = (Rejected, s)).
Proof.
  intros row run. subst run.
  unfold createComment, attempt, insertIntoComments. fold row. split.
  - intros Hpost. rewrite decide_True by done. unfold ret. cbn [fst snd head].
    assert (comments (withComment row s) = comments s ++ [row]) as Hcomments
      by done.
    split_and!; [done| | |done..].
    + rewrite !getCommentsByPost_eq, Hcomments, comments_of_post_snoc.
      rewrite decide_True by done. by rewrite !orderBy_Permutation.
    + intros postId Hne.
      rewrite !getCommentsByPost_eq, Hcomments, comments_of_post_snoc.
      rewrite decide_False by congruence. by rewrite app_nil_r.
  - intros Hpost. by rewrite decide_False.
Qed.

(** X17: the feed follows [toggleLike]: with distinct keys of [posts] and of
    [likes] and a store that hands out keys not in use, every row of
    [getPosts()] is a row of [getPosts()] after [toggleLike(postId, userId)],
    with its [likeCount] moved by one when it is the row of the post
    [postId] (up for [liked = true], down for [liked = false]) and unchanged
    otherwise, as it is when the call rejects. *)
Theorem toggleLike_feed s (postId userId : string) (r : PostWithCounts) :
  postKeys s → likeKeys s →
  (∀ used, newId used ∉ used) →
  r ∈ evalDB getPosts s →
  let res := evalDB (toggleLike newId postId userId) s in
  let s' := execDB (toggleLike newId postId userId) s in
  mkPostWithCounts (pc_post r)
    (if decide (post_id (pc_post r) = postId)
     then likeCount r + match res with
                        | Resolved t => if liked t then 1 else -1
                        | Rejected => 0
                        end
     else likeCount r)
    (commentCount r)
  ∈ evalDB getPosts s'.
Proof.
  intros Hposts Hkeys Hfresh Hr res s'.
  assert (likeKeys s') as Hkeys' by (by apply toggleLike_likeKeys).
  apply (elem_of_getPosts_keys s r Hposts) in Hr as (Hp & Hlc & Hcc).
  destruct (toggleLike_tables newId s postId userId) as (_ & Hps & Hcs).
  fold s' in Hps, Hcs.
  apply (elem_of_getPosts_keys s'); [unfold postKeys; by rewrite Hps|].
  cbn [pc_post likeCount commentCount]. rewrite Hps, Hcs.
  split_and!; [done| |done].
  rewrite (length_remove_dups_keys like_id _
             (filter (λ l, like_postId l = post_id (pc_post r)) (likes s')));
    [|by apply NoDup_key_filter|done].
  rewrite (length_remove_dups_keys like_id _
             (filter (λ l, like_postId l = post_id (pc_post r)) (likes s)))
    in Hlc; [|by apply NoDup_key_filter|done].
  rewrite Hlc. subst res s'. unfold evalDB, execDB.
  destruct (toggleLike_cases newId s postId userId)
    as [(E & Hpost & ->)|[(E & Hpost & ->)|(l & rest & E & ->)]]; cbn [fst snd liked].
  - rewrite likes_withLike, filter_app, length_app, filter_cons.
    cbn [like_postId]. destruct (decide (post_id (pc_post r) = postId)).
    + rewrite decide_True by done. simpl. lia.
    + rewrite decide_False by done. simpl. lia.
  - case_decide; [lia|done].
  - destruct (fetched_like _ _ _ _ _ E) as (Hl & Hpl & _).
    destruct (decide (post_id (pc_post r) = postId)) as [Heq|Hne].
    + rewrite likes_deleteLike.
      rewrite (delete_by_key like_id (likes s) l Hkeys Hl) at 1.
      rewrite filter_cons_True by congruence. simpl. lia.
    + rewrite deleteLike_others; [done..|]. congruence.
Qed.

End Creates.

(** ** More theorems at the sample store *)

(** Decides a closed statement about the sample store. *)
Ltac decide_sample := apply (bool_decide_unpack _); vm_compute; exact I.

Lemma feed_user_keys : userKeys Sample.feed ∧ usernameKeys Sample.feed.
Proof. unfold userKeys, usernameKeys. split; decide_sample. Defined.

Lemma feed_on_posts : likesOnPosts Sample.feed ∧ commentsOnPosts Sample.feed.
Proof. unfold likesOnPosts, commentsOnPosts. split; apply Forall_forall; decide_sample. Defined.

Lemma feed_atMostOneLike (postId userId : string) :
  atMostOneLike postId userId Sample.feed.
Proof.
  unfold atMostOneLike, Sample.feed, likes.
  rewrite !filter_cons, filter_nil. unfold likeOf.
  repeat case_decide; simpl in *; try lia.
  destruct_and!. congruence.
Defined.

Lemma feed_posts :
  "p1" ∈ post_id <$> posts Sample.feed ∧ "p2" ∈ post_id <$> posts Sample.feed
  ∧ "p9" ∉ post_id <$> posts Sample.feed.
Proof. split_and!; decide_sample. Defined.

Lemma addLike_is_seen_witness :
  ("p2" ∈ post_id <$> posts Sample.feed
   ∧ let run := addLike Sample.freshId "p2" "u1" Sample.feed in
     run.1 = Resolved tt
     ∧ evalDB (checkUserLike "p2" "u1") run.2 = true
     ∧ evalDB (getLikesByPost "p2") run.2
       ≡ₚ evalDB (getLikesByPost "p2") Sample.feed
          ++ [mkLike (Sample.freshId (like_id <$> likes Sample.feed)) "p2" "u1"])
  ∧ (("p9" ∉ post_id <$> posts Sample.feed)
     ∧ addLike Sample.freshId "p9" "u1" Sample.feed = (Rejected, Sample.feed)).
Proof.
  destruct feed_posts as (_ & Hp2 & Hp9).
  destruct (addLike_is_seen Sample.freshId Sample.feed "p2" "u1") as [Hseen _].
  destruct (addLike_is_seen Sample.freshId Sample.feed "p9" "u1") as [_ Hrefused].
  destruct (Hseen Hp2) as (Hres & Hcheck & Hrows & _).
  split; (split; [done|]); [|by apply Hrefused]. split_and!; done.
Defined.

Lemma toggleLike_count_witness :
  likeKeys Sample.feed
  ∧ evalDB (getLikesCount "p1") Sample.feed = JsString "2"
  ∧ evalDB (toggleLike Sample.freshId "p1" "u1") Sample.feed
    = Resolved (mkToggleResult false)
  ∧ evalDB (getLikesCount "p1")
      (execDB (toggleLike Sample.freshId "p1" "u1") Sample.feed)
    = JsString "1".
Proof.
  destruct feed_keys as (Hlikes & _ & _).
  split_and!; [done|reflexivity..|].
  exact (toggleLike_count Sample.freshId Sample.feed "p1" "u1" Hlikes).
Defined.

Lemma toggleLike_frame_witness :
  likeKeys Sample.feed
  ∧ let s' := execDB (toggleLike Sample.freshId "p1" "u1") Sample.feed in
    (∀ postId' userId', (postId', userId') ≠ ("p1", "u1") →
       evalDB (checkUserLike postId' userId') s'
       = evalDB (checkUserLike postId' userId') Sample.feed)
    ∧ (∀ postId', postId' ≠ "p1" →
         evalDB (getLikesByPost postId') s'
         = evalDB (getLikesByPost postId') Sample.feed)
    ∧ users s' = users Sample.feed ∧ posts s' = posts Sample.feed
    ∧ comments s' = comments Sample.feed.
Proof.
  destruct feed_keys as (Hlikes & _ & _). split; [done|].
  exact (toggleLike_frame Sample.freshId Sample.feed "p1" "u1" Hlikes).
Defined.

Lemma toggleLike_keeps_invariants_witness :
  let s' := execDB (toggleLike Sample.freshId "p1" "u1") Sample.doubled in
  atMostOneLike "p1" "u2" Sample.doubled
  ∧ atMostOneLike "p1" "u2" s'
  ∧ (∀ used, Sample.freshId used ∉ used)
  ∧ likeKeys Sample.doubled
  ∧ likeKeys s'.
Proof.
  intros s'.
  destruct (toggleLike_keeps_invariants Sample.freshId Sample.doubled "p1" "u1")
    as [Hpairs Hkeys].
  assert (atMostOneLike "p1" "u2" Sample.doubled) as Hone
    by (unfold atMostOneLike; vm_compute; lia).
  assert (likeKeys Sample.doubled) as Hdoubled by decide_sample.
  split_and!; [done|by apply Hpairs|exact freshId_fresh|done|].
  exact (Hkeys freshId_fresh Hdoubled).
Defined.

Lemma toggleLike_twice_restores_witness :
  filter (likeOf "p2" "u1") (likes Sample.feed) = []
  ∧ (Sample.freshId (like_id <$> likes Sample.feed)
     ∉ like_id <$> likes Sample.feed)
  ∧ execDB (toggleTimes Sample.freshId 2 "p2" "u1") Sample.feed = Sample.feed.
Proof.
  assert (filter (likeOf "p2" "u1") (likes Sample.feed) = []) as Hnone
    by reflexivity.
  split_and!; [done|apply freshId_fresh|].
  exact (toggleLike_twice_restores Sample.freshId Sample.feed "p2" "u1" Hnone
           (freshId_fresh _)).
Defined.

Lemma lookups_found_witness :
  userKeys Sample.feed ∧ usernameKeys Sample.feed ∧ postKeys Sample.feed
  ∧ Sample.post2 ∈ posts Sample.feed
  ∧ getPost "p2" Sample.feed = (Some Sample.post2, Sample.feed)
  ∧ getUser "u1" Sample.feed = (Some (mkUser "u1" "ada" tt), Sample.feed)
  ∧ getUserByUsername "ada" Sample.feed = (Some (mkUser "u1" "ada" tt), Sample.feed).
Proof.
  destruct feed_user_keys as [Hids Hnames]. destruct feed_keys as (_ & _ & Hposts).
  destruct (lookups_found Sample.feed Hids Hnames Hposts) as [Husers Hfound].
  assert (Sample.post2 ∈ posts Sample.feed) as Hp by (right; left).
  assert (mkUser "u1" "ada" tt ∈ users Sample.feed) as Hu by left.
  split_and!; [done..|exact (Hfound _ Hp)|exact (proj1 (Husers _ Hu))
                     |exact (proj2 (Husers _ Hu))].
Defined.

Lemma getPosts_one_row_per_post_witness :
  postKeys Sample.feed
  ∧ pc_post <$> evalDB getPosts Sample.feed ≡ₚ posts Sample.feed
  ∧ pc_post <$> evalDB getPosts Sample.feed
    ≡ₚ evalDB (getPostsByRoom "lobby") Sample.feed
  ∧ length (evalDB getPosts Sample.feed) = length (posts Sample.feed).
Proof.
  destruct feed_keys as (_ & _ & Hposts). split; [done|].
  exact (getPosts_one_row_per_post Sample.feed "lobby" Hposts).
Defined.

Lemma toggleLike_race_witness :
  "p1" ∈ post_id <$> posts Sample.feed
  ∧ atMostOneLike "p1" "u1" Sample.feed
  ∧ let had := evalDB (checkUserLike "p1" "u1") Sample.feed in
    let run :=
      runSchedule Sample.freshId [0; 1; 0; 1]%nat
        [Issued "p1" "u1"; Issued "p1" "u1"] Sample.feed in
    run.1 = [Returned (mkToggleResult (negb had));
             Returned (mkToggleResult (negb had))]
    ∧ length (filter (likeOf "p1" "u1") (likes run.2))
      = if had then 0%nat else 2%nat.
Proof.
  destruct feed_posts as (Hp1 & _ & _).
  split; [done|]. split; [apply feed_atMostOneLike|].
  exact (toggleLike_race Sample.freshId Sample.feed "p1" "u1" Hp1
           (feed_atMostOneLike "p1" "u1")).
Defined.

Lemma addComment_comes_last_witness :
  "p1" ∈ post_id <$> posts Sample.feed
  ∧ (∀ c, c ∈ comments Sample.feed → comment_postId c = "p1" →
          comment_createdAt c < SampleInserts.clock Sample.feed)
  ∧ last (evalDB (getComments "p1")
            (execDB (addComment Sample.freshId SampleInserts.clock "p1" "again")
               Sample.feed))
    = Some "again".
Proof.
  assert (∀ c, c ∈ comments Sample.feed → comment_postId c = "p1" →
               comment_createdAt c < SampleInserts.clock Sample.feed) as Hlater
    by (apply (proj1 (Forall_forall
                        (λ c, comment_postId c = "p1" →
                              comment_createdAt c < SampleInserts.clock Sample.feed)
                        (comments Sample.feed)));
        decide_sample).
  destruct feed_posts as (Hp1 & _ & _).
  split; [done|]. split; [done|].
  exact (addComment_comes_last Sample.freshId SampleInserts.clock Sample.feed
           "p1" "again" Hp1 Hlater).
Defined.

Lemma addComment_is_seen_witness :
  ("p1" ∈ post_id <$> posts Sample.feed
   ∧ let run :=
       addComment Sample.freshId SampleInserts.clock "p1" "again" Sample.feed in
     run.1 = Resolved tt
     ∧ evalDB (getComments "p1") run.2
       ≡ₚ evalDB (getComments "p1") Sample.feed ++ ["again"])
  ∧ (("p9" ∉ post_id <$> posts Sample.feed)
     ∧ addComment Sample.freshId SampleInserts.clock "p9" "again" Sample.feed
       = (Rejected, Sample.feed)).
Proof.
  destruct feed_posts as (Hp1 & _ & Hp9).
  destruct (addComment_is_seen Sample.freshId SampleInserts.clock Sample.feed
              "p1" "again") as [Hseen _].
  destruct (addComment_is_seen Sample.freshId SampleInserts.clock Sample.feed
              "p9" "again") as [_ Hrefused].
  destruct (Hseen Hp1) as (Hres & _ & Htexts & _).
  split; (split; [done|]); [|by apply Hrefused]. split; done.
Defined.

Lemma createComment_is_seen_witness :
  let row := SampleInserts.commentRow ("p1", "again", "Ada") Sample.feed in
  let run :=
    createComment SampleInserts.commentRow ("p1", "again", "Ada") Sample.feed in
  comment_postId row ∈ post_id <$> posts Sample.feed
  ∧ run.1 = Resolved (Some row)
  ∧ evalDB (getCommentsByPost "p1") run.2
    ≡ₚ evalDB (getCommentsByPost "p1") Sample.feed ++ [row]
  ∧ (comment_postId (SampleInserts.commentRow ("p9", "again", "Ada") Sample.feed)
     ∉ post_id <$> posts Sample.feed)
  ∧ createComment SampleInserts.commentRow ("p9", "again", "Ada") Sample.feed
    = (Rejected, Sample.feed).
Proof.
  intros row run. destruct feed_posts as (Hp1 & _ & Hp9).
  destruct (createComment_is_seen SampleInserts.commentRow Sample.feed
              ("p1", "again", "Ada")) as [Hseen _].
  destruct (createComment_is_seen SampleInserts.commentRow Sample.feed
              ("p9", "again", "Ada")) as [_ Hrefused].
  destruct (Hseen Hp1) as (Hres & Hrows & _).
  split_and!; [done..|by apply Hrefused].
Defined.

Lemma addComment_feed_witness :
  postKeys Sample.feed ∧ commentKeys Sample.feed
  ∧ (Sample.freshId (comment_id <$> comments Sample.feed)
     ∉ comment_id <$> comments Sample.feed)
  ∧ mkPostWithCounts Sample.post1 2 2 ∈ evalDB getPosts Sample.feed
  ∧ mkPostWithCounts Sample.post1 2 3
    ∈ evalDB getPosts
        (execDB (addComment Sample.freshId SampleInserts.clock "p1" "again")
           Sample.feed).
Proof.
  destruct feed_keys as (_ & Hcomments & Hposts).
  assert (mkPostWithCounts Sample.post1 2 2 ∈ evalDB getPosts Sample.feed) as Hrow
    by (rewrite feed_getPosts; right; left).
  split_and!; [done..|apply freshId_fresh|done|].
  exact (addComment_feed Sample.freshId SampleInserts.clock Sample.feed "p1"
           "again" _ Hposts Hcomments (freshId_fresh _) Hrow).
Defined.

Lemma createUser_round_trip_witness :
  let row := SampleInserts.userRow "bob" Sample.feed in
  let s' := execDB (createUser SampleInserts.userRow "bob") Sample.feed in
  userKeys Sample.feed ∧ usernameKeys Sample.feed
  ∧ (user_id row ∉ user_id <$> users Sample.feed)
  ∧ (user_username row ∉ user_username <$> users Sample.feed)
  ∧ evalDB (createUser SampleInserts.userRow "bob") Sample.feed = Some row
  ∧ getUser (user_id row) s' = (Some row, s')
  ∧ getUserByUsername "bob" s' = (Some row, s')
  ∧ userKeys s' ∧ usernameKeys s'.
Proof.
  intros row s'. destruct feed_user_keys as [Hids Hnames].
  assert (user_id row ∉ user_id <$> users Sample.feed) as Hid
    by apply freshId_fresh.
  assert (user_username row ∉ user_username <$> users Sample.feed) as Hname
    by decide_sample.
  destruct (createUser_round_trip SampleInserts.userRow Sample.feed "bob"
              Hids Hnames Hid Hname) as (Hret & Hget & Hbyname & _ & Hids' & Hnames').
  split_and!; done.
Defined.

Lemma createPost_round_trip_witness :
  let row := SampleInserts.postRow ("Ada", "third") Sample.feed in
  let s' := execDB (createPost SampleInserts.postRow ("Ada", "third")) Sample.feed in
  postKeys Sample.feed ∧ likesOnPosts Sample.feed ∧ commentsOnPosts Sample.feed
  ∧ (post_id row ∉ post_id <$> posts Sample.feed)
  ∧ evalDB (createPost SampleInserts.postRow ("Ada", "third")) Sample.feed = Some row
  ∧ getPost (post_id row) s' = (Some row, s')
  ∧ mkPostWithCounts row 0 0 ∈ evalDB getPosts s'
  ∧ (∀ r, r ∈ evalDB getPosts Sample.feed → r ∈ evalDB getPosts s')
  ∧ postKeys s'.
Proof.
  intros row s'. destruct feed_keys as (_ & _ & Hposts).
  destruct feed_on_posts as [Hlikes Hcomments].
  assert (post_id row ∉ post_id <$> posts Sample.feed) as Hid
    by apply freshId_fresh.
  do 4 (split; [done|]).
  exact (createPost_round_trip SampleInserts.postRow Sample.feed ("Ada", "third")
           Hposts Hlikes Hcomments Hid).
Defined.

Lemma createPost_on_top_witness :
  let row := SampleInserts.postRow ("Ada", "third") Sample.feed in
  let s' := execDB (createPost SampleInserts.postRow ("Ada", "third")) Sample.feed in
  postKeys Sample.feed
  ∧ (post_id row ∉ post_id <$> posts Sample.feed)
  ∧ (∀ p, p ∈ posts Sample.feed → post_createdAt p < post_createdAt row)
  ∧ head (evalDB (getPostsByRoom "lobby") s') = Some row
  ∧ pc_post <$> head (evalDB getPosts s') = Some row.
Proof.
  intros row s'. destruct feed_keys as (_ & _ & Hposts).
  assert (post_id row ∉ post_id <$> posts Sample.feed) as Hid
    by apply freshId_fresh.
  assert (∀ p, p ∈ posts Sample.feed → post_createdAt p < post_createdAt row)
    as Hlater by (apply Forall_forall; decide_sample).
  do 3 (split; [done|]).
  exact (createPost_on_top SampleInserts.postRow Sample.feed ("Ada", "third")
           "lobby" Hposts Hid Hlater).
Defined.

Lemma toggleLike_feed_witness :
  postKeys Sample.feed ∧ likeKeys Sample.feed
  ∧ (∀ used, Sample.freshId used ∉ used)
  ∧ mkPostWithCounts Sample.post1 2 2 ∈ evalDB getPosts Sample.feed
  ∧ mkPostWithCounts Sample.post1 1 2
    ∈ evalDB getPosts (execDB (toggleLike Sample.freshId "p1" "u1") Sample.feed).
Proof.
  destruct feed_keys as (Hlikes & _ & Hposts).
  assert (mkPostWithCounts Sample.post1 2 2 ∈ evalDB getPosts Sample.feed) as Hrow
    by (rewrite feed_getPosts; right; left).
  split_and!; [done..|exact freshId_fresh|done|].
  exact (toggleLike_feed Sample.freshId Sample.feed "p1" "u1" _ Hposts Hlikes
           freshId_fresh Hrow).
Defined.

Section Serial.

Context {Profile : Type}.
Variable newId : list string → string.

Implicit Types (s : Store Profile) (postId userId : string).

Lemma insert_middle (served : list Call) (c c' : Call) (waiting : list Call) :
  <[length served := c']> (served ++ c :: waiting) = served ++ c' :: waiting.
Proof.
  rewrite <- (Nat.add_0_r (length served)). by rewrite insert_app_r.
Qed.

(** The two statements of the next call, served back to back. *)
Lemma serve_next (served waiting : list Call) s postId userId :
  let r := evalDB (toggleLike newId postId userId) s in
  let s' := execDB (toggleLike newId postId userId) s in
  runSchedule newId [length served; length served]
    (served ++ Issued postId userId :: waiting) s
  = (served ++ settled r :: waiting, s').
Proof.
  intros r s'.
  pose proof (stepCall_twice newId s postId userId) as Htwice.
  unfold bind in Htwice. rewrite stepCall_Issued in Htwice.
  rewrite runSchedule_cons.
  rewrite (stepAt_Some _ _ _ (Issued postId userId))
    by (by apply list_lookup_middle).
  rewrite stepCall_Issued. cbn [fst snd]. rewrite insert_middle.
  rewrite runSchedule_cons.
  erewrite stepAt_Some by (by apply list_lookup_middle).
  rewrite Htwice. cbn [fst snd]. by rewrite insert_middle.
Qed.

Lemma runSchedule_app (sched1 sched2 : list nat) (calls : list Call) s :
  runSchedule newId (sched1 ++ sched2) calls s
  = runSchedule newId sched2 (runSchedule newId sched1 calls s).1
      (runSchedule newId sched1 calls s).2.
Proof.
  revert calls s. induction sched1 as [|i sched1 IH]; intros calls s; [done|].
  rewrite <- app_comm_cons, !runSchedule_cons. apply IH.
Qed.

Lemma serially_sequential (k : nat) (served : list Call) s postId userId :
  runSchedule newId (serially (seq (length served) k))
    (served ++ replicate k (Issued postId userId)) s
  = (served ++ (settled <$> evalDB (toggleTimes newId k postId userId) s),
     execDB (toggleTimes newId k postId userId) s).
Proof.
  revert served s. induction k as [|k IH]; intros served s.
  { by rewrite !app_nil_r. }
  cbn [seq replicate]. unfold serially. rewrite bind_cons. fold (serially (seq (S (length served)) k)).
  rewrite runSchedule_app, serve_next. cbn [fst snd].
  rewrite toggleTimes_S_eval, toggleTimes_S_exec, fmap_cons.
  rewrite (cons_middle (settled _)), (cons_middle (settled _) served), !app_assoc.
  replace (S (length served))
    with (length (served ++ [settled (evalDB (toggleLike newId postId userId) s)]))
    by (rewrite length_app; simpl; lia).
  apply IH.
Qed.

(** X18: calls that the store serves one after another are calls in
    sequence: when the statements of [N] calls of [toggleLike] for a pair are
    served call by call, the calls settle as [N] awaited calls do, with the
    same results or rejections in the same order, and leave the same
    store. *)
Theorem serial_calls_are_sequential (N : nat) s postId userId :
  runSchedule newId (serially (seq 0 N)) (replicate N (Issued postId userId)) s
  = (settled <$> evalDB (toggleTimes newId N postId userId) s,
     execDB (toggleTimes newId N postId userId) s).
Proof. apply (serially_sequential N []). Qed.

End Serial.
